(** * Montecarlo.py: the Monte Carlo NPV engine and its summary statistics

    Shallow embeddings of [monte_carlo_simulation] (Montecarlo.py, lines
    5-20) and of the NumPy calls that summarise its result (lines 48-50),
    followed by the properties of the specification.

    Numbers.  The program computes on binary64 floats.  It is embedded
    twice.

    - Over exact rationals.  The finite values are rationals [Q], and one
      extra value [NonFin] stands for what IEEE arithmetic produces when a
      division has a zero divisor (Infinity or NaN).  Rounding and
      overflow are not represented.  This embedding carries the properties
      that rounding cannot change: the cash-flow formula, the concrete
      scenario, the reproducibility and the composition of runs, the run
      the script makes, the order of the percentiles of finite samples.

    - Over binary64 (module [binary64]).  The values are Rocq's primitive
      floats, with their rounding, signed zeros, Infinity and NaN; Python's
      float power raises OverflowError, and [np.random.normal] tests the
      sign bit of its standard deviation.  This embedding carries the
      properties that depend on which exceptions are raised, or on an
      equality holding to the last bit.

    The parameters are Python floats and ints, as the script passes them.

    Randomness.  [np.random.normal] reads and advances NumPy's global
    generator.  The generator is threaded through explicitly as a
    [RandomState]: the sequence of standard normal variates the seed
    determines, and a cursor into it. *)

From Stdlib Require Import String ZArith QArith Qround Qpower Lqa Lia List Bool Sorted
  Permutation Qabs Floats.
Import ListNotations.

Set Warnings "-notation-overridden,-inexact-float,-abstract-large-number".

Open Scope Q_scope.

(** ** Numbers *)

Inductive num : Type :=
  | Fin (q : Q)
  | NonFin.

(** IEEE: a non-finite operand gives a non-finite sum or difference. *)
Definition num_add (a b : num) : num :=
  match a, b with
  | Fin x, Fin y => Fin (x + y)
  | _, _ => NonFin
  end.

Definition num_sub (a b : num) : num :=
  match a, b with
  | Fin x, Fin y => Fin (x - y)
  | _, _ => NonFin
  end.

(** [np.float64 / float]: a zero divisor gives Infinity or NaN (with a
    RuntimeWarning), never an exception. *)
Definition num_div (x d : Q) : num :=
  if Qeq_bool d 0 then NonFin else Fin (x / d).

Definition is_finite (a : num) : bool :=
  match a with Fin _ => true | NonFin => false end.

(** Equality of two values: the same rational, or both non-finite. *)
Definition num_eq (a b : num) : Prop :=
  match a, b with
  | Fin x, Fin y => x == y
  | NonFin, NonFin => True
  | _, _ => False
  end.

Definition Qlt_bool (x y : Q) : bool := negb (Qle_bool y x).

(** ** Exceptions *)

Inductive exn : Type :=
  | ValueError (msg : string)
  | IndexError (msg : string).

Inductive result (A : Type) : Type :=
  | Ok (a : A)
  | Raise (e : exn).

Arguments Ok {A} a.
Arguments Raise {A} e.

Definition bind {A B : Type} (m : result A) (k : A -> result B) : result B :=
  match m with
  | Ok a => k a
  | Raise e => Raise e
  end.

Notation "x <- m ;; k" := (bind m (fun x => k))
  (at level 61, m at next level, right associativity).
Notation "' p <- m ;; k" := (bind m (fun x => let p := x in k))
  (at level 61, p pattern, m at next level, right associativity).

(** ** Python built-ins used by the engine *)

Module py.

(** [range(n)]: 0, 1, ..., n-1; empty when [n <= 0]. *)
Definition range (n : Z) : list Z := map Z.of_nat (seq 0 (Z.to_nat n)).

(** [l[i]] on a list: negative indices count from the end, anything else
    out of range raises IndexError. *)
Definition getitem {A : Type} (l : list A) (i : Z) : result A :=
  let len := Z.of_nat (length l) in
  let j := if (i <? 0)%Z then (len + i)%Z else i in
  if ((j <? 0) || (len <=? j))%Z%bool
  then Raise (IndexError "list index out of range")
  else match nth_error l (Z.to_nat j) with
       | Some a => Ok a
       | None => Raise (IndexError "list index out of range")
       end.

(** [sum(f(t) for t in ts)]: starts from 0 and adds the terms from left to
    right; an exception raised while a term is computed ends the sum. *)
Fixpoint sum_from (acc : num) (f : Z -> result num) (ts : list Z) : result num :=
  match ts with
  | [] => Ok acc
  | t :: ts' => x <- f t ;; sum_from (num_add acc x) f ts'
  end.

Definition sum (f : Z -> result num) (ts : list Z) : result num :=
  sum_from (Fin 0) f ts.

End py.

(** ** NumPy *)

Module np.

(** The state of the global generator: the standard normal variates it
    will deliver, and how many have been consumed. *)
Record RandomState : Type := mkRandomState {
  gauss : nat -> Q;
  pos : nat
}.

Definition advance (g : RandomState) (n : nat) : RandomState :=
  mkRandomState (gauss g) (pos g + n).

(** The [k]-th variate still to come. *)
Definition draw (g : RandomState) (k : nat) : Q := gauss g (pos g + k)%nat.

(** [np.random.normal(loc, scale, size)]: [size] samples, each
    [loc + scale * z] for the next standard normal [z].  NumPy rejects a
    negative [scale] and a negative [size] with ValueError. *)
Definition random_normal (loc scale : Q) (size : Z) (g : RandomState)
  : result (list Q * RandomState) :=
  if Qlt_bool scale 0 then Raise (ValueError "scale < 0")
  else if (size <? 0)%Z then Raise (ValueError "negative dimensions are not allowed")
  else
    let n := Z.to_nat size in
    Ok (map (fun k => loc + scale * draw g k) (seq 0 n), advance g n).

(** [np.mean(a)]: the sum of the elements over their number.  On an empty
    array this is 0/0, which NumPy returns as NaN with a RuntimeWarning. *)
Definition mean (a : list Q) : num :=
  num_div (fold_left Qplus a 0) (inject_Z (Z.of_nat (length a))).

(** The order statistics of an array. *)
Fixpoint insert (x : Q) (l : list Q) : list Q :=
  match l with
  | [] => [x]
  | y :: l' => if Qle_bool x y then x :: l else y :: insert x l'
  end.

Definition sort (a : list Q) : list Q := fold_right insert [] a.

Definition lerp (a b t : Q) : Q := a + (b - a) * t.

(** The value at a fractional position of the order statistics: linear
    interpolation between the two that bracket it, the last one having no
    successor. *)
Definition interpolate (sorted : list Q) (virtual_index : Q) : Q :=
  let previous_index := Z.to_nat (Qfloor virtual_index) in
  let next_index := Nat.min (previous_index + 1) (length sorted - 1) in
  let gamma := virtual_index - inject_Z (Qfloor virtual_index) in
  lerp (nth previous_index sorted 0) (nth next_index sorted 0) gamma.

(** [np.percentile(a, q)] with the default method, as NumPy documents it:
    the virtual index is [(n - 1) * q / 100], and the result interpolates
    linearly between the two order statistics that bracket it.  The result
    is [None] on an empty array, which has no order statistics; what NumPy
    does there is not documented and is not modelled. *)
Definition percentile (a : list Q) (q : Q) : option Q :=
  match a with
  | [] => None
  | _ :: _ =>
      let n := length a in
      let virtual_index := inject_Z (Z.of_nat n - 1) * (q / 100) in
      Some (interpolate (sort a) virtual_index)
  end.

End np.

(** ** The engine (Montecarlo.py, lines 5-20) *)

(** Lines 12-16: the body of the loop over the sampled sales. *)
Definition net_cash_flow_of (variable_cost_pct fixed_costs tax_rate s : Q) : Q :=
  let revenue := s in
  let costs := (variable_cost_pct * s) + fixed_costs in
  let gross_profit := revenue - costs in
  let taxes := gross_profit * tax_rate in
  let net_cash_flow := gross_profit - taxes in
  net_cash_flow.

(** Lines 10-17: [net_cash_flows] grows by one [append] per sampled sale. *)
Definition net_cash_flows_of (variable_cost_pct fixed_costs tax_rate : Q)
    (simulated_sales : list Q) : list Q :=
  fold_left
    (fun net_cash_flows s =>
       net_cash_flows ++ [net_cash_flow_of variable_cost_pct fixed_costs tax_rate s])
    simulated_sales [].

(** Line 18, one term of the generator:
    [net_cash_flows[t] / (1 + discount_rate) ** (t + 1)]. *)
Definition discounted_term (discount_rate : Q) (net_cash_flows : list Q) (t : Z)
  : result num :=
  c <- py.getitem net_cash_flows t ;;
  Ok (num_div c ((1 + discount_rate) ^ (t + 1))).

(** Line 18. *)
Definition npv_of (years : Z) (discount_rate initial_investment : Q)
    (net_cash_flows : list Q) : result num :=
  total <- py.sum (discounted_term discount_rate net_cash_flows) (py.range years) ;;
  Ok (num_sub total (Fin initial_investment)).

Section Engine.

(** The parameters of [monte_carlo_simulation] that every trial reads. *)
Variable years : Z.
Variables discount_rate base_sales sales_deviation : Q.
Variables variable_cost_pct fixed_costs tax_rate initial_investment : Q.

(** Lines 9-18: one trial. *)
Definition trial (g : np.RandomState) : result (num * np.RandomState) :=
  '(simulated_sales, g') <-
     np.random_normal base_sales (sales_deviation * base_sales) years g ;;
  let net_cash_flows :=
    net_cash_flows_of variable_cost_pct fixed_costs tax_rate simulated_sales in
  npv <- npv_of years discount_rate initial_investment net_cash_flows ;;
  Ok (npv, g').

(** Lines 8-19: the loop over the trials, with [n] iterations left. *)
Fixpoint trials (n : nat) (npv_simulations : list num) (g : np.RandomState)
  : result (list num * np.RandomState) :=
  match n with
  | O => Ok (npv_simulations, g)
  | S n' =>
      '(npv, g') <- trial g ;;
      trials n' (npv_simulations ++ [npv]) g'
  end.

End Engine.

(** Lines 5-20.  The result carries the array returned and the state the
    generator is left in. *)
Definition monte_carlo_simulation (num_simulations years : Z)
    (discount_rate base_sales sales_deviation
     variable_cost_pct fixed_costs tax_rate initial_investment : Q)
    (g : np.RandomState) : result (list num * np.RandomState) :=
  trials years discount_rate base_sales sales_deviation
         variable_cost_pct fixed_costs tax_rate initial_investment
         (Z.to_nat num_simulations) [] g.

(** ** The summary statistics (Montecarlo.py, lines 48-50)

    The statistics are modelled on finite samples: [finite_samples] reads
    the array the engine returned as rationals, when all of it is finite. *)

Fixpoint finite_samples (npv_simulations : list num) : option (list Q) :=
  match npv_simulations with
  | [] => Some []
  | Fin q :: rest =>
      match finite_samples rest with
      | Some qs => Some (q :: qs)
      | None => None
      end
  | NonFin :: _ => None
  end.

Definition npv_mean (npv_simulations : list Q) : num :=
  np.mean npv_simulations.

Definition percentile_5 (npv_simulations : list Q) : option Q :=
  np.percentile npv_simulations 5.

Definition percentile_95 (npv_simulations : list Q) : option Q :=
  np.percentile npv_simulations 95.

(** Samples whose differences stay in binary64.  The interpolation of
    [np.percentile] subtracts two order statistics; samples of magnitude
    up to 2^1022 keep that difference below 2^1024. *)
Definition differences_in_range (npv_simulations : list Q) : Prop :=
  Forall (fun npv => Qabs npv <= inject_Z (2 ^ 1022)) npv_simulations.

(** ** Pure forms of the engine, used to state what it computes *)

(** Line 9: the sale sampled for year [t] when the generator is in state [g]. *)
Definition sampled_sale (base_sales sales_deviation : Q) (g : np.RandomState)
    (t : nat) : Q :=
  base_sales + (sales_deviation * base_sales) * np.draw g t.

(** Line 18 without the exception plumbing: the running total of the sum,
    [t] being the index of the first cash flow still to be added. *)
Fixpoint discount_acc (discount_rate : Q) (acc : num) (t : nat)
    (net_cash_flows : list Q) : num :=
  match net_cash_flows with
  | [] => acc
  | c :: cs =>
      discount_acc discount_rate
        (num_add acc (num_div c ((1 + discount_rate) ^ (Z.of_nat t + 1))))
        (S t) cs
  end.

(** The sample a trial started in state [g] appends. *)
Definition trial_npv (years : Z)
    (discount_rate base_sales sales_deviation
     variable_cost_pct fixed_costs tax_rate initial_investment : Q)
    (g : np.RandomState) : num :=
  num_sub
    (discount_acc discount_rate (Fin 0) 0
       (map (fun t => net_cash_flow_of variable_cost_pct fixed_costs tax_rate
                        (sampled_sale base_sales sales_deviation g t))
            (seq 0 (Z.to_nat years))))
    (Fin initial_investment).

(** The samples of a result, without the generator state. *)
Definition samples (r : result (list num * np.RandomState)) : result (list num) :=
  match r with
  | Ok (npv_simulations, _) => Ok npv_simulations
  | Raise e => Raise e
  end.

(** Two outcomes agree up to [R]: the same exception, or related values. *)
Inductive result_rel {A B : Type} (R : A -> B -> Prop)
  : result A -> result B -> Prop :=
  | rel_Ok : forall a b, R a b -> result_rel R (Ok a) (Ok b)
  | rel_Raise : forall e, result_rel R (Raise e) (Raise e).

(** A generator state to run the engine on: its variates are -2, -1, 0, 1, ... *)
Definition example_state : np.RandomState :=
  np.mkRandomState (fun k => inject_Z (Z.of_nat k) - 2) 0.

(** A state with the same first six variates, and others afterwards. *)
Definition example_state' : np.RandomState :=
  np.mkRandomState
    (fun k => if (k <? 6)%nat then inject_Z (Z.of_nat k) - 2 else 7) 0.

(** ** The specification's formulas *)

Definition Qsum (l : list Q) : Q := fold_right Qplus 0 l.

(** The sum over t from 0 to [years]-1 of net_cash_flow_t divided by
    (1 + discount_rate) to the power t+1. *)
Definition discounted_sum (discount_rate : Q) (years : nat)
    (net_cash_flow : nat -> Q) : Q :=
  Qsum (map (fun t => net_cash_flow t / (1 + discount_rate) ^ (Z.of_nat t + 1))
            (seq 0 years)).

(** The net cash flow of a year with sales [s], written out. *)
Definition spec_net_cash_flow (variable_cost_fraction fixed_costs tax_rate s : Q) : Q :=
  (s - (variable_cost_fraction * s + fixed_costs))
  - (s - (variable_cost_fraction * s + fixed_costs)) * tax_rate.

(** ** The inputs of the script (Montecarlo.py, lines 34-42)

    Each widget returns a value between its [min_value] and its
    [max_value]; these are the arguments line 45 passes to the engine. *)
Definition in_widget_ranges (num_simulations years : Z)
    (discount_rate base_sales sales_deviation
     variable_cost_pct fixed_costs tax_rate initial_investment : Q) : Prop :=
  (1000 <= num_simulations <= 50000)%Z
  /\ (1 <= years <= 20)%Z
  /\ 1#100 <= discount_rate <= 2#10
  /\ 100 <= base_sales <= 10000
  /\ 1#100 <= sales_deviation <= 5#10
  /\ 1#10 <= variable_cost_pct <= 9#10
  /\ 0 <= fixed_costs <= 5000
  /\ 1#10 <= tax_rate <= 5#10
  /\ 500 <= initial_investment <= 10000.

(** * The engine in binary64

    The same function (Montecarlo.py, lines 5-20) with the arithmetic the
    program really performs: IEEE binary64 floats, with their rounding,
    signed zeros, infinities and NaN.  The properties that depend on which
    exceptions are raised, or on an equality holding to the last bit, are
    stated on this embedding.

    Two things come from outside Python's float arithmetic and are taken
    as they are: the standard normal variates of the generator, and the
    float power [x ** n] of line 18, which the C library computes. *)

Module binary64.

#[local] Open Scope float_scope.

(** ** Floats *)

(** The sign bit as [np.random.normal] tests it: [not isnan(x) and
    signbit(x)].  It is set for -0.0. *)
Definition signbit (x : float) : bool :=
  match Prim2SF x with
  | S754_zero s | S754_infinity s | S754_finite s _ _ => s
  | S754_nan => false
  end.

Definition is_finite (x : float) : bool :=
  match Prim2SF x with
  | S754_zero _ | S754_finite _ _ _ => true
  | S754_infinity _ | S754_nan => false
  end.

(** The rational number a finite float stands for (0 for the others). *)
Definition exact (x : float) : Q :=
  match Prim2SF x with
  | S754_finite s m e =>
      ((if s then -1 else 1) * (inject_Z (Zpos m) * 2 ^ e))%Q
  | _ => 0%Q
  end.

(** Python's [x ** n] for a float [x] and an int [n >= 1]: the value, or
    [None] when Python raises OverflowError.  The C library computes it and
    is not modelled; what is used of it is that [x ** 1] is [x], that
    [0.0 ** n] is [0.0], and that a finite [x] whose exact [n]-th power is
    beyond 2^1025 in magnitude overflows. *)
Record float_power : Type := {
  pow : float -> Z -> option float;
  pow_one : forall x, pow x 1 = Some x;
  pow_zero : forall n, (1 <= n)%Z -> pow 0 n = Some 0;
  pow_overflow :
    forall x n, (2 <= n)%Z -> is_finite x = true ->
                (inject_Z (2 ^ 1025) <= Qabs (exact x) ^ n)%Q ->
                pow x n = None
}.

Fixpoint product (x : float) (n : nat) : float :=
  match n with
  | O => 1
  | S n' => x * product x n'
  end.

(** A power to run the engine with: overflow decided on the exact value,
    the result by repeated multiplication.  A zero keeps its sign under an
    odd exponent. *)
Definition reference_pow (x : float) (n : Z) : option float :=
  if (n =? 1)%Z then Some x
  else if (x =? 0) then Some (if Z.odd n then x else 0)
  else if is_finite x
          && Qle_bool (inject_Z (2 ^ 1024)) (Qabs (exact x) ^ n)
       then None
       else Some (product x (Z.to_nat n)).

Definition reference_power : float_power.
Proof.
  refine {| pow := reference_pow |}.
  - intro x. reflexivity.
  - intros n Hn. unfold reference_pow.
    destruct (n =? 1)%Z; [reflexivity|]. destruct (Z.odd n); reflexivity.
  - intros x n Hn Hfin Hbig. unfold reference_pow.
    destruct (Z.eqb_spec n 1) as [->|_]; [lia|].
    destruct (x =? 0) eqn:Ez.
    + exfalso. rewrite eqb_spec in Ez.
      change (Prim2SF 0) with (S754_zero false) in Ez.
      unfold exact, is_finite in *.
      destruct (Prim2SF x) as [s| | |s m e]; try discriminate.
      * change (Qabs 0) with 0%Q in Hbig. rewrite Qpower_0 in Hbig by lia.
        apply (Qle_not_lt _ _ Hbig). reflexivity.
      * destruct s; cbv in Ez; discriminate.
    + rewrite Hfin. cbn [andb].
      assert (H : Qle_bool (inject_Z (2 ^ 1024)) (Qabs (exact x) ^ n) = true).
      { apply Qle_bool_iff. apply Qle_trans with (inject_Z (2 ^ 1025)); [|exact Hbig].
        rewrite <- Zle_Qle. apply Z.pow_le_mono_r; lia. }
      now rewrite H.
Defined.

(** ** Exceptions *)

Inductive exception : Type :=
  | ValueError (msg : string)
  | OverflowError (msg : string)
  | IndexError (msg : string).

Inductive result (A : Type) : Type :=
  | Ok (a : A)
  | Raise (e : exception).

Arguments Ok {A} a.
Arguments Raise {A} e.

Definition bind {A B : Type} (m : result A) (k : A -> result B) : result B :=
  match m with
  | Ok a => k a
  | Raise e => Raise e
  end.

Notation "x <- m ;; k" := (bind m (fun x => k))
  (at level 61, m at next level, right associativity).
Notation "' p <- m ;; k" := (bind m (fun x => let p := x in k))
  (at level 61, p pattern, m at next level, right associativity).

(** ** Python built-ins *)

Definition getitem {A : Type} (l : list A) (i : Z) : result A :=
  let len := Z.of_nat (length l) in
  let j := if (i <? 0)%Z then (len + i)%Z else i in
  if ((j <? 0) || (len <=? j))%Z%bool
  then Raise (IndexError "list index out of range")
  else match nth_error l (Z.to_nat j) with
       | Some a => Ok a
       | None => Raise (IndexError "list index out of range")
       end.

(** [sum(f(t) for t in ts)]: starts from the int 0, which the first
    addition turns into the float 0.0. *)
Fixpoint sum_from (acc : float) (f : Z -> result float) (ts : list Z)
  : result float :=
  match ts with
  | [] => Ok acc
  | t :: ts' => x <- f t ;; sum_from (acc + x) f ts'
  end.

Definition sum (f : Z -> result float) (ts : list Z) : result float :=
  sum_from 0 f ts.

(** ** NumPy's generator *)

Record RandomState : Type := mkRandomState {
  gauss : nat -> float;
  pos : nat
}.

Definition advance (g : RandomState) (n : nat) : RandomState :=
  mkRandomState (gauss g) (pos g + n).

Definition draw (g : RandomState) (k : nat) : float := gauss g (pos g + k)%nat.

(** [np.random.normal(loc, scale, size)]: ValueError when the sign bit of
    [scale] is set (also for -0.0) or [size] is negative, else [size]
    samples [loc + scale * z]. *)
Definition random_normal (loc scale : float) (size : Z) (g : RandomState)
  : result (list float * RandomState) :=
  if signbit scale then Raise (ValueError "scale < 0")
  else if (size <? 0)%Z
       then Raise (ValueError "negative dimensions are not allowed")
       else
         let n := Z.to_nat size in
         Ok (map (fun k => loc + scale * draw g k) (seq 0 n), advance g n).

(** ** The engine (Montecarlo.py, lines 5-20) *)

(** Lines 12-16. *)
Definition net_cash_flow_of (variable_cost_pct fixed_costs tax_rate s : float)
  : float :=
  let revenue := s in
  let costs := (variable_cost_pct * s) + fixed_costs in
  let gross_profit := revenue - costs in
  let taxes := gross_profit * tax_rate in
  let net_cash_flow := gross_profit - taxes in
  net_cash_flow.

(** Lines 10-17. *)
Definition net_cash_flows_of (variable_cost_pct fixed_costs tax_rate : float)
    (simulated_sales : list float) : list float :=
  fold_left
    (fun net_cash_flows s =>
       net_cash_flows ++ [net_cash_flow_of variable_cost_pct fixed_costs tax_rate s])
    simulated_sales [].

Section Engine.

Variable power : float_power.

(** Line 18, one term: [net_cash_flows[t] / (1 + discount_rate) ** (t + 1)].
    The power raises OverflowError when it leaves binary64; the division,
    of a NumPy float, raises nothing, whatever the divisor. *)
Definition discounted_term (discount_rate : float) (net_cash_flows : list float)
    (t : Z) : result float :=
  c <- getitem net_cash_flows t ;;
  match pow power (1 + discount_rate) (t + 1) with
  | Some p => Ok (c / p)
  | None => Raise (OverflowError "(34, 'Numerical result out of range')")
  end.

(** Line 18. *)
Definition npv_of (years : Z) (discount_rate initial_investment : float)
    (net_cash_flows : list float) : result float :=
  total <- sum (discounted_term discount_rate net_cash_flows) (py.range years) ;;
  Ok (total - initial_investment).

Variable years : Z.
Variables discount_rate base_sales sales_deviation : float.
Variables variable_cost_pct fixed_costs tax_rate initial_investment : float.

(** Lines 9-18: one trial. *)
Definition trial (g : RandomState) : result (float * RandomState) :=
  '(simulated_sales, g') <-
     random_normal base_sales (sales_deviation * base_sales) years g ;;
  let net_cash_flows :=
    net_cash_flows_of variable_cost_pct fixed_costs tax_rate simulated_sales in
  npv <- npv_of years discount_rate initial_investment net_cash_flows ;;
  Ok (npv, g').

(** Lines 8-19. *)
Fixpoint trials (n : nat) (npv_simulations : list float) (g : RandomState)
  : result (list float * RandomState) :=
  match n with
  | O => Ok (npv_simulations, g)
  | S n' =>
      '(npv, g') <- trial g ;;
      trials n' (npv_simulations ++ [npv]) g'
  end.

End Engine.

(** Lines 5-20. *)
Definition monte_carlo_simulation (power : float_power)
    (num_simulations years : Z)
    (discount_rate base_sales sales_deviation
     variable_cost_pct fixed_costs tax_rate initial_investment : float)
    (g : RandomState) : result (list float * RandomState) :=
  trials power years discount_rate base_sales sales_deviation
         variable_cost_pct fixed_costs tax_rate initial_investment
         (Z.to_nat num_simulations) [] g.

(** ** Pure forms and the specification's formulas *)

Definition samples (r : result (list float * RandomState)) : result (list float) :=
  match r with
  | Ok (npv_simulations, _) => Ok npv_simulations
  | Raise e => Raise e
  end.

Inductive result_rel {A B : Type} (R : A -> B -> Prop)
  : result A -> result B -> Prop :=
  | rel_Ok : forall a b, R a b -> result_rel R (Ok a) (Ok b)
  | rel_Raise : forall e, result_rel R (Raise e) (Raise e).

(** The sale sampled for year [t] when the generator is in state [g]. *)
Definition sampled_sale (base_sales sales_deviation : float) (g : RandomState)
    (t : nat) : float :=
  base_sales + (sales_deviation * base_sales) * draw g t.

(** The net cash flow of a year with sales [s], written out. *)
Definition spec_net_cash_flow (variable_cost_fraction fixed_costs tax_rate s : float)
  : float :=
  (s - (variable_cost_fraction * s + fixed_costs))
  - (s - (variable_cost_fraction * s + fixed_costs)) * tax_rate.

(** The discount factors [(1 + discount_rate) ** (t + 1)] for the [n] years
    from year [t] on, when none of them overflows. *)
Fixpoint discount_factors (power : float_power) (discount_rate : float)
    (t n : nat) : option (list float) :=
  match n with
  | O => Some []
  | S n' =>
      match pow power (1 + discount_rate) (Z.of_nat t + 1) with
      | None => None
      | Some p =>
          match discount_factors power discount_rate (S t) n' with
          | None => None
          | Some ps => Some (p :: ps)
          end
      end
  end.

(** The sum over t from 0 to [years]-1 of net_cash_flow_t divided by the
    factor of year t, added from left to right starting from 0. *)
Definition discounted_sum (years : nat) (net_cash_flow factor : nat -> float)
  : float :=
  fold_left (fun total t => total + net_cash_flow t / factor t) (seq 0 years) 0.

(** The running total of line 18 over cash flows and factors given as
    lists. *)
Fixpoint discount_acc (acc : float) (net_cash_flows factors : list float)
  : float :=
  match net_cash_flows, factors with
  | c :: cs, p :: ps => discount_acc (acc + c / p) cs ps
  | _, _ => acc
  end.

(** The sample of a trial started in state [g], given the discount
    factors. *)
Definition trial_npv (years : Z)
    (base_sales sales_deviation
     variable_cost_pct fixed_costs tax_rate initial_investment : float)
    (factors : list float) (g : RandomState) : float :=
  discount_acc 0
    (map (fun t => net_cash_flow_of variable_cost_pct fixed_costs tax_rate
                     (sampled_sale base_sales sales_deviation g t))
         (seq 0 (Z.to_nat years)))
    factors
  - initial_investment.

(** The sample of a trial whose sales are [base_sales] every year: the
    discounted sum of the one net cash flow, minus the investment. *)
Definition deterministic_npv (years : Z)
    (base_sales variable_cost_pct fixed_costs tax_rate initial_investment : float)
    (factor : nat -> float) : float :=
  discounted_sum (Z.to_nat years)
    (fun _ => net_cash_flow_of variable_cost_pct fixed_costs tax_rate base_sales)
    factor
  - initial_investment.

(** What a run returns from the discounted sums of its trials: each one
    minus the investment. *)
Definition minus_investment (initial_investment : float)
    (totals : result (list float * RandomState))
  : result (list float * RandomState) :=
  match totals with
  | Ok (discounted_sums, g) =>
      Ok (map (fun total => total - initial_investment) discounted_sums, g)
  | Raise e => Raise e
  end.

(** ** NumPy's percentile (Montecarlo.py, lines 49-50)

    [np.percentile(a, q)] with the default method, 'linear', on a
    non-empty array: NaN when the array holds a NaN; otherwise the array is
    sorted, the virtual index is [(n - 1) * (q / 100)], and the result is
    interpolated between the two order statistics that bracket it. *)

Definition is_nan (x : float) : bool :=
  match Prim2SF x with
  | S754_nan => true
  | _ => false
  end.

Definition of_Z (z : Z) : float := of_uint63 (Uint63.of_Z z).

(** The integer part of a finite float that is not negative. *)
Definition floor (x : float) : Z := Qfloor (exact x).

Fixpoint insert (x : float) (l : list float) : list float :=
  match l with
  | [] => [x]
  | y :: l' => if x <=? y then x :: l else y :: insert x l'
  end.

Definition sort (a : list float) : list float := fold_right insert [] a.

Definition lerp (a b t : float) : float :=
  if 0.5 <=? t then b - (b - a) * (1 - t) else a + (b - a) * t.

Definition percentile (a : list float) (q : Z) : option float :=
  match a with
  | [] => None
  | _ :: _ =>
      if existsb is_nan a then Some nan
      else
        let n := Z.of_nat (length a) in
        let virtual_index := of_Z (n - 1) * (of_Z q / 100) in
        let previous := floor virtual_index in
        let next := Z.min (previous + 1) (n - 1) in
        let gamma := virtual_index - of_Z previous in
        Some (lerp (nth (Z.to_nat previous) (sort a) nan)
                   (nth (Z.to_nat next) (sort a) nan)
                   gamma)
  end.

(** Lines 49-50. *)
Definition percentile_5 (npv_simulations : list float) : option float :=
  percentile npv_simulations 5.

Definition percentile_95 (npv_simulations : list float) : option float :=
  percentile npv_simulations 95.

(** Generator states to run the engine on. *)
Definition example_state : RandomState :=
  mkRandomState (fun k => of_uint63 (Uint63.of_Z (Z.of_nat k)) / 2 - 1) 0.

(** The same variates from the fourth on. *)
Definition example_state' : RandomState :=
  mkRandomState
    (fun k => if (k <? 3)%nat
              then 3
              else of_uint63 (Uint63.of_Z (Z.of_nat k)) / 2 - 1) 0.

End binary64.

(** * Properties *)

(** ** The exception monad and the built-ins *)

Lemma Qlt_bool_true (x y : Q) : Qlt_bool x y = true <-> x < y.
Proof.
  unfold Qlt_bool. rewrite negb_true_iff.
  split; intro H.
  - apply Qnot_le_lt. intro Hle. apply Qle_bool_iff in Hle. congruence.
  - destruct (Qle_bool y x) eqn:E; [|reflexivity].
    apply Qle_bool_iff in E. exfalso. apply (Qlt_not_le _ _ H E).
Qed.

Lemma Qlt_bool_false (x y : Q) : Qlt_bool x y = false <-> y <= x.
Proof.
  unfold Qlt_bool. rewrite negb_false_iff. apply Qle_bool_iff.
Qed.

Lemma fold_append_map {A B : Type} (h : A -> B) (l : list A) (acc : list B) :
  fold_left (fun acc x => acc ++ [h x]) l acc = acc ++ map h l.
Proof.
  revert acc. induction l as [|x l IH]; intro acc; simpl.
  - now rewrite app_nil_r.
  - rewrite IH, <- app_assoc. reflexivity.
Qed.

Lemma net_cash_flows_of_map (v f tax : Q) (sales : list Q) :
  net_cash_flows_of v f tax sales = map (net_cash_flow_of v f tax) sales.
Proof.
  unfold net_cash_flows_of.
  now rewrite (fold_append_map (net_cash_flow_of v f tax) sales []).
Qed.

Lemma getitem_app_head {A : Type} (pre : list A) (c : A) (cs : list A) :
  py.getitem (pre ++ c :: cs) (Z.of_nat (length pre)) = Ok c.
Proof.
  unfold py.getitem.
  assert (Hlen : length (pre ++ c :: cs) = (length pre + S (length cs))%nat)
    by (rewrite length_app; reflexivity).
  rewrite Hlen.
  destruct (Z.ltb_spec (Z.of_nat (length pre)) 0) as [Hneg|_]; [lia|].
  destruct (Z.ltb_spec (Z.of_nat (length pre)) 0) as [Hneg|_]; [lia|].
  destruct (Z.leb_spec (Z.of_nat (length pre + S (length cs))) (Z.of_nat (length pre)))
    as [Hge|_]; [lia|].
  simpl. rewrite Nat2Z.id, nth_error_app2 by lia.
  now rewrite Nat.sub_diag.
Qed.

(** The sum of line 18 never raises: every index it reads is in range. *)
Lemma sum_from_discounted (r : Q) (cs pre : list Q) (acc : num) :
  py.sum_from acc (discounted_term r (pre ++ cs))
              (map Z.of_nat (seq (length pre) (length cs)))
  = Ok (discount_acc r acc (length pre) cs).
Proof.
  revert pre acc. induction cs as [|c cs IH]; intros pre acc; simpl.
  - reflexivity.
  - unfold discounted_term at 1. rewrite getitem_app_head. simpl.
    specialize (IH (pre ++ [c])).
    rewrite <- app_assoc, length_app in IH. simpl in IH.
    rewrite Nat.add_1_r in IH. apply IH.
Qed.

Lemma npv_of_ok (years : Z) (r I : Q) (cfs : list Q) :
  length cfs = Z.to_nat years ->
  npv_of years r I cfs = Ok (num_sub (discount_acc r (Fin 0) 0 cfs) (Fin I)).
Proof.
  intro Hlen. unfold npv_of, py.sum, py.range. rewrite <- Hlen.
  pose proof (sum_from_discounted r cfs [] (Fin 0)) as H.
  cbn [app length] in H. rewrite H. reflexivity.
Qed.

(** ** The generator *)

Lemma advance_0 (g : np.RandomState) : np.advance g 0 = g.
Proof.
  destruct g as [z p]. unfold np.advance. simpl. now rewrite Nat.add_0_r.
Qed.

Lemma advance_advance (g : np.RandomState) (a b : nat) :
  np.advance (np.advance g a) b = np.advance g (a + b).
Proof.
  unfold np.advance. simpl. now rewrite Nat.add_assoc.
Qed.

Lemma draw_advance (g : np.RandomState) (a k : nat) :
  np.draw (np.advance g a) k = np.draw g (a + k).
Proof.
  unfold np.draw, np.advance. simpl. now rewrite Nat.add_assoc.
Qed.

(** ** What a trial and a run compute *)

Section EngineFacts.

Variable years : Z.
Variables discount_rate base_sales sales_deviation : Q.
Variables variable_cost_pct fixed_costs tax_rate initial_investment : Q.

Let trial_ := trial years discount_rate base_sales sales_deviation
                    variable_cost_pct fixed_costs tax_rate initial_investment.
Let trials_ := trials years discount_rate base_sales sales_deviation
                      variable_cost_pct fixed_costs tax_rate initial_investment.
Let trial_npv_ := trial_npv years discount_rate base_sales sales_deviation
                            variable_cost_pct fixed_costs tax_rate initial_investment.

(** A trial either fails in the sampler, whatever the generator state, or
    appends [trial_npv] and advances the generator by [years] variates. *)
Lemma trial_spec (g : np.RandomState) :
  trial_ g =
  if Qlt_bool (sales_deviation * base_sales) 0
  then Raise (ValueError "scale < 0")
  else if (years <? 0)%Z
       then Raise (ValueError "negative dimensions are not allowed")
       else Ok (trial_npv_ g, np.advance g (Z.to_nat years)).
Proof.
  unfold trial_, trial, np.random_normal.
  destruct (Qlt_bool (sales_deviation * base_sales) 0); [reflexivity|].
  destruct (years <? 0)%Z; [reflexivity|].
  cbn [bind]. rewrite net_cash_flows_of_map, npv_of_ok.
  - cbn [bind]. unfold trial_npv_, trial_npv, sampled_sale.
    now rewrite map_map.
  - now rewrite !length_map, length_seq.
Qed.

(** The whole loop: with no iteration left nothing happens; otherwise the
    first trial decides whether the run fails, and a run that does not fail
    appends the samples of the successive trials in order. *)
Lemma trials_spec (n : nat) (npv_simulations : list num) (g : np.RandomState) :
  trials_ n npv_simulations g =
  match n with
  | O => Ok (npv_simulations, g)
  | S _ =>
      if Qlt_bool (sales_deviation * base_sales) 0
      then Raise (ValueError "scale < 0")
      else if (years <? 0)%Z
           then Raise (ValueError "negative dimensions are not allowed")
           else Ok (npv_simulations ++
                      map (fun i => trial_npv_ (np.advance g (i * Z.to_nat years)))
                          (seq 0 n),
                    np.advance g (n * Z.to_nat years))
  end.
Proof.
  revert npv_simulations g.
  induction n as [|n IH]; intros acc g; [reflexivity|].
  unfold trials_ in *. cbn [trials]. fold trial_. rewrite trial_spec.
  destruct (Qlt_bool (sales_deviation * base_sales) 0); [reflexivity|].
  destruct (years <? 0)%Z; [reflexivity|].
  cbn [bind]. rewrite IH. destruct n as [|n].
  - cbn [seq map Nat.mul]. rewrite advance_0, Nat.add_0_r. reflexivity.
  - rewrite <- app_assoc. apply f_equal, f_equal2.
    + change (seq 0 (S (S n))) with (0%nat :: seq 1 (S n)).
      cbn [map app Nat.mul]. rewrite advance_0.
      rewrite <- seq_shift, !map_map.
      apply (f_equal (app acc)), (f_equal (cons _)).
      apply map_ext. intro i.
      now rewrite advance_advance.
    + rewrite advance_advance. reflexivity.
Qed.

End EngineFacts.

(** ** The discounted sum *)

Lemma num_div_nonzero (x d : Q) : ~ d == 0 -> num_div x d = Fin (x / d).
Proof.
  intro Hd. unfold num_div. destruct (Qeq_bool d 0) eqn:E; [|reflexivity].
  apply Qeq_bool_iff in E. contradiction.
Qed.

Lemma discount_factor_nonzero (r : Q) (t : nat) :
  ~ 1 + r == 0 -> ~ (1 + r) ^ (Z.of_nat t + 1) == 0.
Proof.
  intro H. now apply Qpower_not_0.
Qed.

(** With a non-zero discount factor the running total stays finite and is
    the specification's sum, whatever the order of the additions. *)
Lemma discount_acc_finite (r : Q) (ncf : nat -> Q) :
  ~ 1 + r == 0 ->
  forall (n t0 : nat) (a : Q),
  exists q,
    discount_acc r (Fin a) t0 (map ncf (seq t0 n)) = Fin q /\
    q == a + Qsum (map (fun t => ncf t / (1 + r) ^ (Z.of_nat t + 1)) (seq t0 n)).
Proof.
  intros Hr n. induction n as [|n IH]; intros t0 a; cbn [seq map discount_acc].
  - exists a. split; [reflexivity|]. unfold Qsum. simpl. ring.
  - rewrite num_div_nonzero by now apply discount_factor_nonzero.
    cbn [num_add].
    destruct (IH (S t0) (a + ncf t0 / (1 + r) ^ (Z.of_nat t0 + 1))) as (q & Hq & Heq).
    exists q. split; [exact Hq|].
    rewrite Heq. unfold Qsum. cbn [fold_right]. ring.
Qed.

Section TrialFacts.

Variable years : Z.
Variables discount_rate base_sales sales_deviation : Q.
Variables variable_cost_pct fixed_costs tax_rate initial_investment : Q.

Let trial_npv_ := trial_npv years discount_rate base_sales sales_deviation
                            variable_cost_pct fixed_costs tax_rate initial_investment.

Lemma trial_npv_finite (g : np.RandomState) :
  ~ 1 + discount_rate == 0 ->
  exists q,
    trial_npv_ g = Fin q /\
    q == discounted_sum discount_rate (Z.to_nat years)
           (fun t => spec_net_cash_flow variable_cost_pct fixed_costs tax_rate
                       (sampled_sale base_sales sales_deviation g t))
         - initial_investment.
Proof.
  intro Hr. unfold trial_npv_, trial_npv.
  destruct (discount_acc_finite discount_rate
              (fun t => net_cash_flow_of variable_cost_pct fixed_costs tax_rate
                          (sampled_sale base_sales sales_deviation g t))
              Hr (Z.to_nat years) 0%nat 0) as (q & Hq & Heq).
  rewrite Hq. cbn [num_sub]. eexists. split; [reflexivity|].
  rewrite Heq, Qplus_0_l. reflexivity.
Qed.

(** A trial reads the generator only through its next [years] variates. *)
Lemma trial_npv_ext (g1 g2 : np.RandomState) :
  (forall t, (t < Z.to_nat years)%nat -> np.draw g1 t = np.draw g2 t) ->
  trial_npv_ g1 = trial_npv_ g2.
Proof.
  intro H. unfold trial_npv_, trial_npv. do 2 f_equal.
  apply map_ext_in. intros t Ht. apply in_seq in Ht.
  unfold sampled_sale. rewrite H by lia. reflexivity.
Qed.

End TrialFacts.

(** A run whose sampler accepts its arguments: the samples of the successive
    trials, in order. *)
Lemma monte_carlo_simulation_ok (num_simulations years : Z)
    (discount_rate base_sales sales_deviation
     variable_cost_pct fixed_costs tax_rate initial_investment : Q)
    (g : np.RandomState) :
  0 <= sales_deviation * base_sales -> (0 <= years)%Z ->
  monte_carlo_simulation num_simulations years discount_rate base_sales
    sales_deviation variable_cost_pct fixed_costs tax_rate initial_investment g
  = Ok (map (fun i => trial_npv years discount_rate base_sales sales_deviation
                        variable_cost_pct fixed_costs tax_rate initial_investment
                        (np.advance g (i * Z.to_nat years)))
            (seq 0 (Z.to_nat num_simulations)),
        np.advance g (Z.to_nat num_simulations * Z.to_nat years)).
Proof.
  intros Hscale Hyears. unfold monte_carlo_simulation. rewrite trials_spec.
  destruct (Z.to_nat num_simulations) as [|n].
  - now rewrite advance_0.
  - apply Qlt_bool_false in Hscale. rewrite Hscale.
    destruct (Z.ltb_spec years 0) as [Hneg|_]; [lia|]. reflexivity.
Qed.

(** ** The claims *)



(** C4.  With simulation_count=1, horizon_years=1, discount_rate=0.10,
    base_sales=1000, sales_deviation=0, variable_cost_fraction=0.40,
    fixed_costs=200, tax_rate=0.30 and initial_investment=2000, whatever the
    state of the generator, the run returns a single sample, equal to
    280/1.10 - 2000 = -19200/11 = -1745.4545...; on the way sales=1000,
    costs=600, gross_profit=400, taxes=120 and net_cash_flow=280. *)
Theorem concrete_scenario_npv :
  forall g : np.RandomState,
    (exists npv,
       monte_carlo_simulation 1 1 (1#10) 1000 0 (4#10) 200 (3#10) 2000 g
       = Ok ([Fin npv], np.advance g 1)
       /\ npv == 280 / (11#10) - 2000
       /\ npv == - (19200#11)
       /\ - (17454546#10000) < npv < - (17454545#10000))
    /\ sampled_sale 1000 0 g 0 == 1000
    /\ (4#10) * 1000 + 200 == 600
    /\ 1000 - 600 == 400
    /\ 400 * (3#10) == 120
    /\ net_cash_flow_of (4#10) 200 (3#10) 1000 == 280.
Proof.
  intro g. split.
  - rewrite monte_carlo_simulation_ok by (try lia; unfold Qle; simpl; lia).
    change (Z.to_nat 1) with 1%nat. cbn [seq map Nat.mul Nat.add].
    rewrite advance_0.
    destruct (trial_npv_finite 1 (1#10) 1000 0 (4#10) 200 (3#10) 2000 g)
      as (q & Hq & Heq); [unfold Qeq; simpl; lia|].
    exists q. split; [now rewrite Hq|].
    assert (Hval : q == 280 / (11#10) - 2000).
    { rewrite Heq. unfold discounted_sum, Qsum.
      change (Z.to_nat 1) with 1%nat. cbn [seq map fold_right Z.of_nat Z.add].
      unfold spec_net_cash_flow, sampled_sale.
      rewrite Qpower_1_r. field. }
    split; [exact Hval|]. split; [rewrite Hval; reflexivity|].
    rewrite Hval. split; reflexivity.
  - unfold sampled_sale, net_cash_flow_of. repeat split; try reflexivity. ring.
Qed.

(** C10.  Two runs with identical parameters, started from generator states
    that deliver the same variates over the [num_simulations * years] draws
    a run consumes, have the same outcome: the same exception, or the same
    samples in the same order.  Both leave the generator advanced by the
    same number of draws. *)
Theorem same_seed_same_samples :
  forall (num_simulations years : Z)
         (discount_rate base_sales sales_deviation
          variable_cost_pct fixed_costs tax_rate initial_investment : Q)
         (g1 g2 : np.RandomState),
    (forall k, (k < Z.to_nat num_simulations * Z.to_nat years)%nat ->
               np.draw g1 k = np.draw g2 k) ->
    samples (monte_carlo_simulation num_simulations years discount_rate
               base_sales sales_deviation variable_cost_pct fixed_costs
               tax_rate initial_investment g1)
    = samples (monte_carlo_simulation num_simulations years discount_rate
                 base_sales sales_deviation variable_cost_pct fixed_costs
                 tax_rate initial_investment g2)
    /\ result_rel (fun run1 run2 =>
                     (np.pos (snd run1) - np.pos g1 =
                      np.pos (snd run2) - np.pos g2)%nat)
         (monte_carlo_simulation num_simulations years discount_rate
            base_sales sales_deviation variable_cost_pct fixed_costs
            tax_rate initial_investment g1)
         (monte_carlo_simulation num_simulations years discount_rate
            base_sales sales_deviation variable_cost_pct fixed_costs
            tax_rate initial_investment g2).
Proof.
  intros n years r base sd v f tax I g1 g2 Hdraws.
  unfold monte_carlo_simulation. rewrite !trials_spec.
  destruct (Z.to_nat n) as [|m] eqn:En.
  - split; [reflexivity|]. constructor. cbn [snd]. lia.
  - destruct (Qlt_bool (sd * base) 0); [split; [reflexivity|constructor]|].
    destruct (years <? 0)%Z; [split; [reflexivity|constructor]|].
    split.
    + cbn [samples app]. f_equal. apply map_ext_in. intros i Hi.
      apply in_seq in Hi. apply trial_npv_ext. intros t Ht.
      rewrite !draw_advance. apply Hdraws. nia.
    + constructor. cbn [snd np.advance np.pos]. lia.
Qed.

Lemma same_seed_same_samples_witness :
  samples (monte_carlo_simulation 2 3 (1#10) 1000 (2#10) (4#10) 200 (3#10) 2000
             example_state)
  = samples (monte_carlo_simulation 2 3 (1#10) 1000 (2#10) (4#10) 200 (3#10)
               2000 example_state')
  /\ result_rel (fun run1 run2 =>
                   (np.pos (snd run1) - np.pos example_state =
                    np.pos (snd run2) - np.pos example_state')%nat)
       (monte_carlo_simulation 2 3 (1#10) 1000 (2#10) (4#10) 200 (3#10) 2000
          example_state)
       (monte_carlo_simulation 2 3 (1#10) 1000 (2#10) (4#10) 200 (3#10) 2000
          example_state').
Proof.
  apply (same_seed_same_samples
           2 3 (1#10) 1000 (2#10) (4#10) 200 (3#10) 2000
           example_state example_state').
  intros k Hk. change (Z.to_nat 2 * Z.to_nat 3)%nat with 6%nat in Hk.
  unfold np.draw, example_state, example_state'. cbn [np.gauss np.pos Nat.add].
  destruct (Nat.ltb_spec k 6) as [_|Hge]; [reflexivity|lia].
Defined.

(** ** Order statistics and percentiles *)

Lemma insert_length (x : Q) (l : list Q) :
  length (np.insert x l) = S (length l).
Proof.
  induction l as [|y l IH]; cbn [np.insert]; [reflexivity|].
  destruct (Qle_bool x y); cbn [length]; [reflexivity|now rewrite IH].
Qed.

Lemma sort_length (a : list Q) : length (np.sort a) = length a.
Proof.
  induction a as [|x a IH]; cbn [np.sort fold_right length]; [reflexivity|].
  fold (np.sort a). now rewrite insert_length, IH.
Qed.

Lemma insert_Forall (P : Q -> Prop) (x : Q) (l : list Q) :
  P x -> Forall P l -> Forall P (np.insert x l).
Proof.
  intros Hx Hl. induction Hl as [|y l Hy Hl IH]; cbn [np.insert].
  - now constructor.
  - destruct (Qle_bool x y); repeat constructor; assumption.
Qed.

Lemma insert_sorted (x : Q) (l : list Q) :
  StronglySorted Qle l -> StronglySorted Qle (np.insert x l).
Proof.
  intro Hl. induction Hl as [|y l Hl IH Hy]; cbn [np.insert].
  - repeat constructor.
  - destruct (Qle_bool x y) eqn:E.
    + apply Qle_bool_iff in E. constructor; [now constructor|].
      constructor; [exact E|].
      apply Forall_impl with (P := Qle y); [|exact Hy].
      intros z Hz. now apply Qle_trans with y.
    + constructor; [exact IH|].
      apply insert_Forall; [|exact Hy].
      destruct (Qlt_le_dec y x) as [Hlt|Hle]; [now apply Qlt_le_weak|].
      apply Qle_bool_iff in Hle. congruence.
Qed.

Lemma sort_sorted (a : list Q) : StronglySorted Qle (np.sort a).
Proof.
  induction a as [|x a IH]; cbn [np.sort fold_right]; [constructor|].
  now apply insert_sorted.
Qed.

(** In a sorted list a later order statistic is at least an earlier one. *)
Lemma sorted_nth_le (l : list Q) :
  StronglySorted Qle l ->
  forall i j, (i <= j)%nat -> (j < length l)%nat -> nth i l 0 <= nth j l 0.
Proof.
  intro Hl. induction Hl as [|y l Hl IH Hy]; intros i j Hij Hj.
  - cbn [length] in Hj. lia.
  - destruct j as [|j].
    + replace i with 0%nat by lia. apply Qle_refl.
    + cbn [length] in Hj. destruct i as [|i]; cbn [nth].
      * rewrite Forall_forall in Hy. apply Hy, nth_In. lia.
      * apply IH; lia.
Qed.

Lemma lerp_bounds (a b t : Q) :
  a <= b -> 0 <= t <= 1 -> a <= np.lerp a b t <= b.
Proof.
  intros Hab [Ht0 Ht1]. unfold np.lerp.
  assert (H1 : 0 <= (b - a) * t) by (apply Qmult_le_0_compat; lra).
  assert (H2 : 0 <= (b - a) * (1 - t)) by (apply Qmult_le_0_compat; lra).
  split; lra.
Qed.

Lemma lerp_mono (a b t1 t2 : Q) :
  a <= b -> t1 <= t2 -> np.lerp a b t1 <= np.lerp a b t2.
Proof.
  intros Hab Ht. unfold np.lerp.
  assert (H : 0 <= (b - a) * (t2 - t1)) by (apply Qmult_le_0_compat; lra).
  lra.
Qed.

(** Interpolating the order statistics is monotone in the position. *)
Lemma interpolate_mono (sorted : list Q) (v w : Q) :
  StronglySorted Qle sorted -> (1 <= length sorted)%nat ->
  0 <= v -> v <= w -> w <= inject_Z (Z.of_nat (length sorted) - 1) ->
  np.interpolate sorted v <= np.interpolate sorted w.
Proof.
  intros Hs Hn Hv Hvw Hw. unfold np.interpolate.
  set (n := length sorted) in *.
  assert (Hfv : (0 <= Qfloor v)%Z) by (apply (Qfloor_resp_le 0 v Hv)).
  assert (Hfvw : (Qfloor v <= Qfloor w)%Z) by now apply Qfloor_resp_le.
  assert (Hfw : (Qfloor w <= Z.of_nat n - 1)%Z).
  { rewrite <- (Qfloor_Z (Z.of_nat n - 1)). now apply Qfloor_resp_le. }
  assert (Hgv : 0 <= v - inject_Z (Qfloor v) <= 1).
  { pose proof (Qfloor_le v). pose proof (Qlt_floor v) as Hlt.
    rewrite inject_Z_plus in Hlt. change (inject_Z 1) with 1 in Hlt.
    split; lra. }
  assert (Hgw : 0 <= w - inject_Z (Qfloor w) <= 1).
  { pose proof (Qfloor_le w). pose proof (Qlt_floor w) as Hlt.
    rewrite inject_Z_plus in Hlt. change (inject_Z 1) with 1 in Hlt.
    split; lra. }
  set (k := Z.to_nat (Qfloor v)). set (m := Z.to_nat (Qfloor w)).
  assert (Hkm : (k <= m)%nat) by (unfold k, m; lia).
  assert (Hm : (m < n)%nat) by (unfold m; lia).
  assert (Hk' : nth k sorted 0 <= nth (Nat.min (k + 1) (n - 1)) sorted 0)
    by (apply sorted_nth_le; [exact Hs| |fold n]; lia).
  assert (Hm' : nth m sorted 0 <= nth (Nat.min (m + 1) (n - 1)) sorted 0)
    by (apply sorted_nth_le; [exact Hs| |fold n]; lia).
  destruct (Nat.eq_dec k m) as [Heq|Hne].
  - assert (Hf : Qfloor v = Qfloor w) by (unfold k, m in Heq; lia).
    rewrite <- Heq, <- Hf. apply lerp_mono; [exact Hk'|lra].
  - apply Qle_trans with (nth (Nat.min (k + 1) (n - 1)) sorted 0);
      [now apply lerp_bounds|].
    apply Qle_trans with (nth m sorted 0); [|now apply lerp_bounds].
    apply sorted_nth_le; [exact Hs| |fold n]; lia.
Qed.

Lemma percentile_nonempty (a : list Q) (q : Q) :
  a <> [] ->
  np.percentile a q
  = Some (np.interpolate (np.sort a)
            (inject_Z (Z.of_nat (length a) - 1) * (q / 100))).
Proof.
  intro Ha. destruct a; [contradiction|reflexivity].
Qed.

(** Percentiles grow with the rank asked for. *)
Lemma percentile_mono (a : list Q) (p q x y : Q) :
  0 <= p -> p <= q -> q <= 100 ->
  np.percentile a p = Some x -> np.percentile a q = Some y -> x <= y.
Proof.
  intros Hp Hpq Hq Hx Hy.
  assert (Ha : a <> []) by (intros ->; discriminate).
  rewrite percentile_nonempty in Hx, Hy by exact Ha.
  injection Hx as <-. injection Hy as <-.
  rename a into l.
  assert (Hlen : (1 <= length l)%nat) by (destruct l; [contradiction|cbn; lia]).
  assert (Hn : 0 <= inject_Z (Z.of_nat (length l) - 1)).
  { change 0 with (inject_Z 0). rewrite <- Zle_Qle. lia. }
  set (X := inject_Z (Z.of_nat (length l) - 1)) in *.
  assert (H1 : 0 <= X * (p / 100)).
  { apply Qmult_le_0_compat; [exact Hn|]. apply Qle_shift_div_l; lra. }
  assert (H2 : 0 <= X * (q / 100 - p / 100)).
  { apply Qmult_le_0_compat; [exact Hn|].
    setoid_replace (q / 100 - p / 100) with ((q - p) / 100) by field.
    apply Qle_shift_div_l; lra. }
  assert (H3 : 0 <= X * (1 - q / 100)).
  { apply Qmult_le_0_compat; [exact Hn|].
    setoid_replace (1 - q / 100) with ((100 - q) / 100) by field.
    apply Qle_shift_div_l; lra. }
  apply interpolate_mono.
  - apply sort_sorted.
  - now rewrite sort_length.
  - exact H1.
  - lra.
  - rewrite sort_length. fold X. lra.
Qed.

Lemma percentile_position (n : nat) (q : Q) :
  (1 <= n)%nat -> 0 <= q -> q <= 100 ->
  0 <= inject_Z (Z.of_nat n - 1) * (q / 100)
  /\ inject_Z (Z.of_nat n - 1) * (q / 100) <= inject_Z (Z.of_nat n - 1).
Proof.
  intros Hn Hq0 Hq1.
  assert (HX : 0 <= inject_Z (Z.of_nat n - 1)).
  { change 0 with (inject_Z 0). rewrite <- Zle_Qle. lia. }
  set (X := inject_Z (Z.of_nat n - 1)) in *.
  assert (H1 : 0 <= X * (q / 100)).
  { apply Qmult_le_0_compat; [exact HX|]. apply Qle_shift_div_l; lra. }
  assert (H2 : 0 <= X * (1 - q / 100)).
  { apply Qmult_le_0_compat; [exact HX|].
    setoid_replace (1 - q / 100) with ((100 - q) / 100) by field.
    apply Qle_shift_div_l; lra. }
  split; lra.
Qed.

Lemma sort_Forall (P : Q -> Prop) (a : list Q) :
  Forall P a -> Forall P (np.sort a).
Proof.
  intro H. induction H as [|x a Hx Ha IH]; cbn [np.sort fold_right].
  - constructor.
  - now apply insert_Forall.
Qed.

Lemma interpolate_first (sorted : list Q) :
  np.interpolate sorted 0 == nth 0 sorted 0.
Proof.
  unfold np.interpolate, np.lerp. change (Qfloor 0) with 0%Z.
  change (Z.to_nat 0) with 0%nat. change (inject_Z 0) with 0. ring.
Qed.

Lemma interpolate_last (sorted : list Q) :
  (1 <= length sorted)%nat ->
  np.interpolate sorted (inject_Z (Z.of_nat (length sorted) - 1))
  == nth (length sorted - 1) sorted 0.
Proof.
  intro Hn. unfold np.interpolate, np.lerp. rewrite Qfloor_Z.
  replace (Z.to_nat (Z.of_nat (length sorted) - 1))
    with (length sorted - 1)%nat by lia.
  replace (Nat.min (length sorted - 1 + 1) (length sorted - 1))
    with (length sorted - 1)%nat by lia.
  ring.
Qed.

(** A percentile lies between the smallest and the largest sample. *)
Lemma percentile_in_sample_range (a : list Q) (q x bound : Q) :
  0 <= q -> q <= 100 -> np.percentile a q = Some x ->
  Forall (fun npv => Qabs npv <= bound) a -> Qabs x <= bound.
Proof.
  intros Hq0 Hq1 Hx Ha.
  assert (Hne : a <> []) by (intros ->; discriminate).
  rewrite percentile_nonempty in Hx by exact Hne. injection Hx as <-.
  assert (Hlen : (1 <= length a)%nat)
    by (destruct a; [contradiction|cbn [length]; lia]).
  destruct (percentile_position (length a) q Hlen Hq0 Hq1) as [Hv0 Hv1].
  pose proof (sort_sorted a) as Hs. pose proof (sort_length a) as Hl.
  pose proof (sort_Forall _ a Ha) as Hb. rewrite Forall_forall in Hb.
  assert (Hlo : nth 0 (np.sort a) 0
                <= np.interpolate (np.sort a)
                     (inject_Z (Z.of_nat (length a) - 1) * (q / 100))).
  { rewrite <- interpolate_first.
    apply interpolate_mono; rewrite ?Hl; try assumption. apply Qle_refl. }
  assert (Hhi : np.interpolate (np.sort a)
                  (inject_Z (Z.of_nat (length a) - 1) * (q / 100))
                <= nth (length a - 1) (np.sort a) 0).
  { rewrite <- Hl at 2. rewrite <- interpolate_last by (rewrite Hl; exact Hlen).
    apply interpolate_mono; rewrite ?Hl; try assumption. apply Qle_refl. }
  assert (H0 : Qabs (nth 0 (np.sort a) 0) <= bound)
    by (apply Hb, nth_In; lia).
  assert (H1 : Qabs (nth (length a - 1) (np.sort a) 0) <= bound)
    by (apply Hb, nth_In; lia).
  apply Qabs_Qle_condition in H0, H1. apply Qabs_Qle_condition.
  split; lra.
Qed.



(** The mean is not bound to lie between the two percentiles: twenty
    samples at 0 and one at 2100 have both percentiles at 0 and mean 100. *)
Example mean_above_percentile_95 :
  exists m p5 p95,
    npv_mean (repeat 0 20 ++ [2100]) = Fin m
    /\ percentile_5 (repeat 0 20 ++ [2100]) = Some p5
    /\ percentile_95 (repeat 0 20 ++ [2100]) = Some p95
    /\ p5 <= p95 /\ p95 < m.
Proof.
  do 3 eexists. split; [reflexivity|]. split; [reflexivity|].
  split; [reflexivity|]. split; vm_compute; [discriminate|reflexivity].
Qed.

(** ** Evaluations *)

Example percentiles_of_five_samples :
  exists p5 p95,
    percentile_5 [3; -1; 10; 4; 0] = Some p5 /\ p5 == - (4#5)
    /\ percentile_95 [3; -1; 10; 4; 0] = Some p95 /\ p95 == 44#5.
Proof.
  do 2 eexists. split; [reflexivity|]. split; [reflexivity|].
  split; reflexivity.
Qed.

Example mean_of_five_samples : num_eq (npv_mean [3; -1; 10; 4; 0]) (Fin (16#5)).
Proof. reflexivity. Qed.

(** [np.mean] of an empty array is 0/0: NaN, not an exception. *)
Example mean_of_no_samples : npv_mean [] = NonFin.
Proof. reflexivity. Qed.

Example two_trials_of_three_years :
  exists npv0 npv1,
    samples (monte_carlo_simulation 2 3 (1#10) 1000 (2#10) (4#10) 200 (3#10)
               2000 example_state)
    = Ok [Fin npv0; Fin npv1]
    /\ npv0 == - (2030880#1331) /\ npv1 == - (1196760#1331).
Proof.
  do 2 eexists. split; [reflexivity|]. split; reflexivity.
Qed.

Example zero_discount_factor_gives_non_finite_samples :
  samples (monte_carlo_simulation 2 3 (-1) 1000 (2#10) (4#10) 200 (3#10) 2000
             example_state)
  = Ok [NonFin; NonFin].
Proof. reflexivity. Qed.

Example negative_horizon_raises :
  samples (monte_carlo_simulation 2 (-3) (1#10) 1000 (2#10) (4#10) 200 (3#10)
             2000 example_state)
  = Raise (ValueError "negative dimensions are not allowed").
Proof. reflexivity. Qed.

Example no_trial_no_sample :
  samples (monte_carlo_simulation 0 3 (1#10) 1000 (-2#10) (4#10) 200 (3#10)
             2000 example_state)
  = Ok [].
Proof. reflexivity. Qed.

(** * Further properties of the engine *)

(** ** How runs fail and how they compose *)

Section LoopFacts.

Variable years : Z.
Variables discount_rate base_sales sales_deviation : Q.
Variables variable_cost_pct fixed_costs tax_rate initial_investment : Q.

Let trials_ := trials years discount_rate base_sales sales_deviation
                      variable_cost_pct fixed_costs tax_rate initial_investment.

(** The samples a loop appends do not depend on what the list already
    holds. *)
Lemma trials_acc (n : nat) (acc : list num) (g : np.RandomState) :
  trials_ n acc g = '(ys, g') <- trials_ n [] g ;; Ok (acc ++ ys, g').
Proof.
  revert acc g. induction n as [|n IH]; intros acc g.
  - cbn. now rewrite app_nil_r.
  - unfold trials_ in *. cbn [trials].
    destruct (trial _ _ _ _ _ _ _ _ g) as [[npv g1]|e]; cbn [bind]; [|reflexivity].
    rewrite (IH (acc ++ [npv])), (IH ([] ++ [npv])).
    destruct (trials _ _ _ _ _ _ _ _ n [] g1) as [[ys g2]|e]; cbn [bind];
      [|reflexivity].
    now rewrite <- app_assoc.
Qed.

Lemma trials_add (a b : nat) (acc : list num) (g : np.RandomState) :
  trials_ (a + b) acc g = '(xs, g') <- trials_ a acc g ;; trials_ b xs g'.
Proof.
  revert acc g. induction a as [|a IH]; intros acc g; [reflexivity|].
  unfold trials_ in *. cbn [trials Nat.add].
  destruct (trial _ _ _ _ _ _ _ _ g) as [[npv g1]|e]; cbn [bind]; [|reflexivity].
  apply IH.
Qed.

End LoopFacts.

(** X2.  Runs compose: a run of n1 + n2 trials is a run of n1 trials
    followed by a run of n2 trials started where the first left the
    generator, the second array appended to the first; if either part
    raises, so does the whole, with the same exception. *)
Theorem monte_carlo_simulation_batches :
  forall (n1 n2 years : Z)
         (discount_rate base_sales sales_deviation
          variable_cost_pct fixed_costs tax_rate initial_investment : Q)
         (g : np.RandomState),
    (0 <= n1)%Z -> (0 <= n2)%Z ->
    monte_carlo_simulation (n1 + n2) years discount_rate base_sales
      sales_deviation variable_cost_pct fixed_costs tax_rate
      initial_investment g
    = ('(first, g1) <-
         monte_carlo_simulation n1 years discount_rate base_sales
           sales_deviation variable_cost_pct fixed_costs tax_rate
           initial_investment g ;;
       '(second, g2) <-
         monte_carlo_simulation n2 years discount_rate base_sales
           sales_deviation variable_cost_pct fixed_costs tax_rate
           initial_investment g1 ;;
       Ok (first ++ second, g2)).
Proof.
  intros n1 n2 years r base sd v f tax I g H1 H2.
  unfold monte_carlo_simulation.
  rewrite Z2Nat.inj_add by assumption. rewrite trials_add.
  destruct (trials _ _ _ _ _ _ _ _ (Z.to_nat n1) [] g) as [[xs g1]|e];
    cbn [bind]; [|reflexivity].
  apply trials_acc.
Qed.

Lemma monte_carlo_simulation_batches_witness :
  monte_carlo_simulation (2 + 3) 4 (1#10) 1000 (2#10) (4#10) 200 (3#10) 2000
    example_state
  = ('(first, g1) <-
       monte_carlo_simulation 2 4 (1#10) 1000 (2#10) (4#10) 200 (3#10) 2000
         example_state ;;
     '(second, g2) <-
       monte_carlo_simulation 3 4 (1#10) 1000 (2#10) (4#10) 200 (3#10) 2000
         g1 ;;
     Ok (first ++ second, g2)).
Proof.
  apply (monte_carlo_simulation_batches
           2 3 4 (1#10) 1000 (2#10) (4#10) 200 (3#10) 2000 example_state); lia.
Defined.



(** The two indices [np.interpolate] reads are in range for a position
    between 0 and n - 1. *)
Lemma interpolate_indices (n : nat) (v : Q) :
  (1 <= n)%nat -> 0 <= v -> v <= inject_Z (Z.of_nat n - 1) ->
  (Z.to_nat (Qfloor v) < n)%nat
  /\ (Nat.min (Z.to_nat (Qfloor v) + 1) (n - 1) < n)%nat.
Proof.
  intros Hn Hv Hw.
  assert (Hfv : (0 <= Qfloor v)%Z) by (apply (Qfloor_resp_le 0 v Hv)).
  assert (Hfw : (Qfloor v <= Z.of_nat n - 1)%Z).
  { rewrite <- (Qfloor_Z (Z.of_nat n - 1)). now apply Qfloor_resp_le. }
  lia.
Qed.

(** ** Sorting two arrays that are related element by element *)

Section SortRelated.

Variable R : Q -> Q -> Prop.
Hypothesis R_order :
  forall x x' y y', R x x' -> R y y' -> Qle_bool x y = Qle_bool x' y'.

Lemma insert_related (x x' : Q) (l l' : list Q) :
  R x x' -> Forall2 R l l' -> Forall2 R (np.insert x l) (np.insert x' l').
Proof.
  intros Hx Hl. induction Hl as [|y y' l l' Hy Hl IH]; cbn [np.insert].
  - repeat constructor. exact Hx.
  - rewrite <- (R_order x x' y y' Hx Hy).
    destruct (Qle_bool x y); repeat constructor; assumption.
Qed.

End SortRelated.

(** ** Arrays with equal elements *)

Lemma Qeq_nth (l l' : list Q) :
  Forall2 Qeq l l' ->
  forall i, (i < length l)%nat -> nth i l' 0 == nth i l 0.
Proof.
  intro H. induction H as [|x x' l l' Hx Hl IH]; intros i Hi.
  - cbn [length] in Hi. lia.
  - destruct i as [|i]; cbn [nth]; [now symmetry|].
    apply IH. cbn [length] in Hi. lia.
Qed.

Lemma interpolate_Qeq (s s' : list Q) (v : Q) :
  Forall2 Qeq s s' -> (1 <= length s)%nat ->
  0 <= v -> v <= inject_Z (Z.of_nat (length s) - 1) ->
  np.interpolate s' v == np.interpolate s v.
Proof.
  intros H Hn Hv Hw. unfold np.interpolate.
  rewrite <- (Forall2_length H).
  destruct (interpolate_indices (length s) v Hn Hv Hw) as [Hi Hj].
  unfold np.lerp.
  rewrite (Qeq_nth s s' H _ Hi), (Qeq_nth s s' H _ Hj).
  reflexivity.
Qed.

Lemma mean_nonempty (a : list Q) :
  a <> [] ->
  0 < inject_Z (Z.of_nat (length a))
  /\ np.mean a
     = Fin (fold_left Qplus a 0 / inject_Z (Z.of_nat (length a))).
Proof.
  intro Ha.
  assert (Hn : 0 < inject_Z (Z.of_nat (length a))).
  { change 0 with (inject_Z 0). rewrite <- Zlt_Qlt.
    destruct a; [contradiction|cbn [length]; lia]. }
  split; [exact Hn|]. unfold np.mean. apply num_div_nonzero. lra.
Qed.

(** ** From the array of a run to its finite samples *)

Lemma finite_samples_of_finite (l : list num) :
  Forall (fun x => exists q, x = Fin q) l ->
  exists a, finite_samples l = Some a /\ Forall2 (fun x q => x = Fin q) l a.
Proof.
  intro H. induction H as [|x l [q ->] Hl (a & Ha & Hrel)].
  - exists []. split; [reflexivity|constructor].
  - exists (q :: a). cbn [finite_samples]. rewrite Ha.
    split; [reflexivity|]. now constructor.
Qed.

(** A run on accepted arguments with a non-zero discount factor returns
    finite samples only. *)
Lemma monte_carlo_simulation_finite (num_simulations years : Z)
    (discount_rate base_sales sales_deviation
     variable_cost_pct fixed_costs tax_rate initial_investment : Q)
    (g : np.RandomState) :
  0 <= sales_deviation * base_sales -> (0 <= years)%Z ->
  ~ 1 + discount_rate == 0 ->
  exists a,
    finite_samples
      (map (fun i => trial_npv years discount_rate base_sales sales_deviation
                       variable_cost_pct fixed_costs tax_rate
                       initial_investment
                       (np.advance g (i * Z.to_nat years)))
           (seq 0 (Z.to_nat num_simulations))) = Some a
    /\ Forall2 (fun x q => x = Fin q)
         (map (fun i => trial_npv years discount_rate base_sales sales_deviation
                          variable_cost_pct fixed_costs tax_rate
                          initial_investment
                          (np.advance g (i * Z.to_nat years)))
              (seq 0 (Z.to_nat num_simulations))) a
    /\ length a = Z.to_nat num_simulations.
Proof.
  intros Hscale Hy Hr.
  destruct (finite_samples_of_finite
              (map (fun i => trial_npv years discount_rate base_sales
                               sales_deviation variable_cost_pct fixed_costs
                               tax_rate initial_investment
                               (np.advance g (i * Z.to_nat years)))
                   (seq 0 (Z.to_nat num_simulations)))) as (a & Ha & Hrel).
  - apply Forall_forall. intros x Hx. apply in_map_iff in Hx.
    destruct Hx as (i & <- & _).
    destruct (trial_npv_finite years discount_rate base_sales sales_deviation
                variable_cost_pct fixed_costs tax_rate initial_investment
                (np.advance g (i * Z.to_nat years)) Hr) as (q & Hq & _).
    now exists q.
  - exists a. split; [exact Ha|]. split; [exact Hrel|].
    rewrite <- (Forall2_length Hrel), length_map, length_seq. reflexivity.
Qed.

(** ** The order of the samples does not matter *)

Lemma Qle_bool_false (x y : Q) : Qle_bool x y = false -> y < x.
Proof.
  intro H. apply Qlt_bool_true. unfold Qlt_bool. now rewrite H.
Qed.

Lemma Qeq_order (x x' y y' : Q) :
  x == x' -> y == y' -> Qle_bool x y = Qle_bool x' y'.
Proof.
  intros Hx Hy. apply eq_true_iff_eq. rewrite !Qle_bool_iff.
  now rewrite Hx, Hy.
Qed.

Lemma Forall2_Qeq_refl (l : list Q) : Forall2 Qeq l l.
Proof.
  induction l; constructor; [reflexivity|assumption].
Qed.

Lemma Forall2_Qeq_trans (l1 l2 l3 : list Q) :
  Forall2 Qeq l1 l2 -> Forall2 Qeq l2 l3 -> Forall2 Qeq l1 l3.
Proof.
  intro H. revert l3. induction H as [|x y l1 l2 Hxy H IH]; intros l3 H3.
  - inversion H3. constructor.
  - inversion H3 as [|? z ? l3' Hyz H3']. subst.
    constructor; [now rewrite Hxy|now apply IH].
Qed.

Ltac split_on_comparisons :=
  repeat (cbn [np.insert];
          match goal with
          | |- context [Qle_bool ?a ?b] =>
              let E := fresh "E" in
              destruct (Qle_bool a b) eqn:E;
              [apply Qle_bool_iff in E | apply Qle_bool_false in E]
          end).

(** Inserting two samples in either order gives the same order statistics. *)
Lemma insert_swap (x y : Q) (l : list Q) :
  Forall2 Qeq (np.insert x (np.insert y l)) (np.insert y (np.insert x l)).
Proof.
  induction l as [|z l IH].
  - split_on_comparisons; try (exfalso; lra);
      repeat (constructor; [lra|]); constructor.
  - split_on_comparisons; try (exfalso; lra);
      repeat (constructor; [lra|]);
      first [exact IH | apply Forall2_Qeq_refl].
Qed.

Lemma sort_permutation (a b : list Q) :
  Permutation a b -> Forall2 Qeq (np.sort a) (np.sort b).
Proof.
  intro H. induction H as [|x a b H IH|x y a|a b c H1 IH1 H2 IH2].
  - constructor.
  - cbn [np.sort fold_right].
    apply (insert_related Qeq Qeq_order); [reflexivity|exact IH].
  - cbn [np.sort fold_right]. apply insert_swap.
  - now apply Forall2_Qeq_trans with (np.sort b).
Qed.

(** X10.  The percentiles of lines 49-50 belong to the samples as a
    multiset: two arrays of finite samples that are permutations of each
    other have the same q-th percentile, for every q from 0 to 100 (and
    none when they are empty). *)
Theorem percentiles_ignore_sample_order :
  forall (a b : list Q) (q : Q),
    Permutation a b -> 0 <= q -> q <= 100 ->
    match np.percentile a q, np.percentile b q with
    | Some x, Some y => x == y
    | None, None => True
    | _, _ => False
    end.
Proof.
  intros a b q Hperm Hq0 Hq1.
  pose proof (Permutation_length Hperm) as Hlen.
  destruct a as [|x a].
  - destruct b; [exact I|discriminate].
  - destruct b as [|y b]; [discriminate|].
    rewrite !percentile_nonempty by discriminate. rewrite <- Hlen.
    symmetry. apply interpolate_Qeq.
    + now apply sort_permutation.
    + rewrite sort_length. cbn [length]. lia.
    + apply percentile_position; [cbn [length]; lia|exact Hq0|exact Hq1].
    + rewrite sort_length.
      apply percentile_position; [cbn [length]; lia|exact Hq0|exact Hq1].
Qed.

Lemma percentiles_ignore_sample_order_witness :
  match np.percentile [3; 1; 2] 5, np.percentile [1; 2; 3] 5 with
  | Some x, Some y => x == y
  | None, None => True
  | _, _ => False
  end.
Proof.
  apply (percentiles_ignore_sample_order [3; 1; 2] [1; 2; 3] 5).
  - apply perm_trans with [1; 3; 2]; [apply perm_swap|].
    apply perm_skip, perm_swap.
  - unfold Qle. simpl. lia.
  - unfold Qle. simpl. lia.
Defined.

(** * The run the script makes (Montecarlo.py, lines 34-50) *)




(** * Properties of the engine in binary64 *)

Module Binary64Facts.

Import binary64.

#[local] Open Scope float_scope.

(** ** Floats *)

Lemma Prim2SF_inj (x y : float) : Prim2SF x = Prim2SF y -> x = y.
Proof.
  intro H. rewrite <- (SF2Prim_Prim2SF x), <- (SF2Prim_Prim2SF y). now rewrite H.
Qed.

(** Adding a zero standard deviation times any finite variate leaves a
    finite mean with a clear sign bit as it is. *)
Lemma zero_scale_sample (base z : float) :
  is_finite base = true -> signbit base = false -> is_finite z = true ->
  base + (0 * base) * z = base.
Proof.
  unfold is_finite, signbit. intros Hb Hs Hz. apply Prim2SF_inj.
  rewrite add_spec, mul_spec, mul_spec.
  change (Prim2SF 0) with (S754_zero false).
  destruct (Prim2SF base) as [sb| | |sb mb eb]; try discriminate;
    destruct (Prim2SF z) as [sz| | |sz mz ez]; try discriminate;
    subst sb; try reflexivity; destruct sz; reflexivity.
Qed.

(** Dividing by zero gives Infinity or NaN, whatever is divided. *)
Lemma div_zero_not_finite (x : float) : is_finite (x / 0) = false.
Proof.
  unfold is_finite. rewrite div_spec.
  change (Prim2SF 0) with (S754_zero false).
  destruct (Prim2SF x); reflexivity.
Qed.

Lemma add_not_finite_r (x y : float) :
  is_finite y = false -> is_finite (x + y) = false.
Proof.
  unfold is_finite. rewrite add_spec.
  destruct (Prim2SF y) as [s|s| |s m e]; try discriminate; intros _;
    destruct (Prim2SF x) as [s'|s'| |s' m' e']; try reflexivity;
    destruct s, s'; reflexivity.
Qed.

Lemma add_not_finite_l (x y : float) :
  is_finite x = false -> is_finite (x + y) = false.
Proof.
  unfold is_finite. rewrite add_spec.
  destruct (Prim2SF x) as [s|s| |s m e]; try discriminate; intros _;
    destruct (Prim2SF y) as [s'|s'| |s' m' e']; try reflexivity;
    destruct s, s'; reflexivity.
Qed.

Lemma sub_not_finite_l (x y : float) :
  is_finite x = false -> is_finite (x - y) = false.
Proof.
  unfold is_finite. rewrite sub_spec.
  destruct (Prim2SF x) as [s|s| |s m e]; try discriminate; intros _;
    destruct (Prim2SF y) as [s'|s'| |s' m' e']; try reflexivity;
    destruct s, s'; reflexivity.
Qed.

(** ** The generator *)

Lemma advance_zero (g : RandomState) : advance g 0 = g.
Proof.
  destruct g as [z p]. unfold advance. simpl. now rewrite Nat.add_0_r.
Qed.

Lemma advance_twice (g : RandomState) (a b : nat) :
  advance (advance g a) b = advance g (a + b).
Proof.
  unfold advance. simpl. now rewrite Nat.add_assoc.
Qed.

Lemma draw_after_advance (g : RandomState) (a k : nat) :
  draw (advance g a) k = draw g (a + k).
Proof.
  unfold draw, advance. simpl. now rewrite Nat.add_assoc.
Qed.

(** ** Line 18 *)

Lemma cash_flows_are_mapped (v f tax : float) (sales : list float) :
  net_cash_flows_of v f tax sales = map (net_cash_flow_of v f tax) sales.
Proof.
  unfold net_cash_flows_of.
  now rewrite (fold_append_map (net_cash_flow_of v f tax) sales []).
Qed.

Lemma getitem_in_range {A : Type} (pre : list A) (c : A) (cs : list A) :
  getitem (pre ++ c :: cs) (Z.of_nat (length pre)) = Ok c.
Proof.
  unfold getitem.
  assert (Hlen : length (pre ++ c :: cs) = (length pre + S (length cs))%nat)
    by (rewrite length_app; reflexivity).
  rewrite Hlen.
  destruct (Z.ltb_spec (Z.of_nat (length pre)) 0) as [Hneg|_]; [lia|].
  destruct (Z.ltb_spec (Z.of_nat (length pre)) 0) as [Hneg|_]; [lia|].
  destruct (Z.leb_spec (Z.of_nat (length pre + S (length cs))) (Z.of_nat (length pre)))
    as [Hge|_]; [lia|].
  simpl. rewrite Nat2Z.id, nth_error_app2 by lia.
  now rewrite Nat.sub_diag.
Qed.

Section Line18.

Variable power : float_power.
Variable r : float.

(** The sum of line 18 raises OverflowError when a power overflows, and
    nothing else: every index it reads is in range. *)
Lemma sum_of_discounted_terms (cs pre : list float) (acc : float) :
  sum_from acc (discounted_term power r (pre ++ cs))
           (map Z.of_nat (seq (length pre) (length cs)))
  = match discount_factors power r (length pre) (length cs) with
    | Some ps => Ok (discount_acc acc cs ps)
    | None => Raise (OverflowError "(34, 'Numerical result out of range')")
    end.
Proof.
  revert pre acc. induction cs as [|c cs IH]; intros pre acc; [reflexivity|].
  cbn [length seq map sum_from discount_factors].
  unfold discounted_term at 1. rewrite getitem_in_range. cbn [bind].
  destruct (pow power (1 + r) (Z.of_nat (length pre) + 1)) as [p|];
    [|reflexivity].
  cbn [bind]. specialize (IH (pre ++ [c]) (acc + c / p)).
  rewrite <- app_assoc, length_app in IH. cbn [length app] in IH.
  rewrite Nat.add_1_r in IH. rewrite IH.
  destruct (discount_factors power r (S (length pre)) (length cs));
    reflexivity.
Qed.

Lemma discount_factors_spec (n t0 : nat) (ps : list float) :
  discount_factors power r t0 n = Some ps ->
  exists factor : nat -> float,
    ps = map factor (seq t0 n)
    /\ forall t, (t0 <= t < t0 + n)%nat ->
                 pow power (1 + r) (Z.of_nat t + 1) = Some (factor t).
Proof.
  revert t0 ps. induction n as [|n IH]; intros t0 ps H; cbn in H.
  - injection H as <-. exists (fun _ => 0). split; [reflexivity|]. lia.
  - destruct (pow power (1 + r) (Z.of_nat t0 + 1)) as [p|] eqn:Ep;
      [|discriminate].
    destruct (discount_factors power r (S t0) n) as [ps'|] eqn:E;
      [|discriminate].
    injection H as <-. destruct (IH (S t0) ps' E) as (f & -> & Hf).
    exists (fun t => if (t =? t0)%nat then p else f t). split.
    + cbn [seq map]. rewrite Nat.eqb_refl. f_equal.
      apply map_ext_in. intros t Ht. apply in_seq in Ht.
      destruct (Nat.eqb_spec t t0); [lia|reflexivity].
    + intros t Ht. destruct (Nat.eqb_spec t t0) as [->|Hne]; [exact Ep|].
      apply Hf. lia.
Qed.

Lemma discount_factors_exist (n t0 : nat) :
  (forall t, (t0 <= t < t0 + n)%nat ->
             pow power (1 + r) (Z.of_nat t + 1) <> None) ->
  exists ps, discount_factors power r t0 n = Some ps.
Proof.
  revert t0. induction n as [|n IH]; intros t0 H; cbn.
  - now exists [].
  - destruct (pow power (1 + r) (Z.of_nat t0 + 1)) as [p|] eqn:Ep.
    + destruct (IH (S t0)) as (ps & ->); [intros t Ht; apply H; lia|].
      now exists (p :: ps).
    + exfalso. apply (H t0); [lia|exact Ep].
Qed.

Lemma discount_factors_overflow (n t0 t : nat) :
  (t0 <= t < t0 + n)%nat ->
  pow power (1 + r) (Z.of_nat t + 1) = None ->
  discount_factors power r t0 n = None.
Proof.
  intros Ht Hp. destruct (discount_factors power r t0 n) as [ps|] eqn:E;
    [|reflexivity].
  destruct (discount_factors_spec n t0 ps E) as (f & _ & Hf).
  rewrite (Hf t Ht) in Hp. discriminate.
Qed.

(** The running total is the specification's sum, added in the same
    order. *)
Lemma discount_acc_is_sum (ncf factor : nat -> float) (n t0 : nat) (acc : float) :
  discount_acc acc (map ncf (seq t0 n)) (map factor (seq t0 n))
  = fold_left (fun total t => total + ncf t / factor t) (seq t0 n) acc.
Proof.
  revert t0 acc. induction n as [|n IH]; intros t0 acc; [reflexivity|].
  cbn [seq map discount_acc fold_left]. apply IH.
Qed.

End Line18.

(** ** What a trial and a run compute *)

Section RunFacts.

Variable power : float_power.
Variable years : Z.
Variables discount_rate base_sales sales_deviation : float.
Variables variable_cost_pct fixed_costs tax_rate initial_investment : float.

Let trial_ := trial power years discount_rate base_sales sales_deviation
                    variable_cost_pct fixed_costs tax_rate initial_investment.
Let trials_ := trials power years discount_rate base_sales sales_deviation
                      variable_cost_pct fixed_costs tax_rate initial_investment.
Let trial_npv_ := trial_npv years base_sales sales_deviation
                            variable_cost_pct fixed_costs tax_rate
                            initial_investment.

(** A trial raises in the sampler, or in a power of line 18, whatever the
    generator state; otherwise it returns [trial_npv] and advances the
    generator by [years] variates. *)
Lemma trial_outcome (g : RandomState) :
  trial_ g =
  if signbit (sales_deviation * base_sales)
  then Raise (ValueError "scale < 0")
  else if (years <? 0)%Z
       then Raise (ValueError "negative dimensions are not allowed")
       else match discount_factors power discount_rate 0 (Z.to_nat years) with
            | None => Raise (OverflowError "(34, 'Numerical result out of range')")
            | Some factors =>
                Ok (trial_npv_ factors g, advance g (Z.to_nat years))
            end.
Proof.
  unfold trial_, trial, random_normal.
  destruct (signbit (sales_deviation * base_sales)); [reflexivity|].
  destruct (years <? 0)%Z; [reflexivity|].
  cbn [bind]. rewrite cash_flows_are_mapped. unfold npv_of, sum, py.range.
  pose proof (sum_of_discounted_terms power discount_rate
                (map (net_cash_flow_of variable_cost_pct fixed_costs tax_rate)
                     (map (fun k => base_sales
                                    + sales_deviation * base_sales * draw g k)
                          (seq 0 (Z.to_nat years))))
                [] 0) as H.
  cbn [app length] in H. rewrite !length_map, length_seq in H. rewrite H.
  destruct (discount_factors power discount_rate 0 (Z.to_nat years));
    [|reflexivity].
  cbn [bind]. unfold trial_npv_, trial_npv, sampled_sale.
  now rewrite map_map.
Qed.

Lemma trials_outcome (n : nat) (npv_simulations : list float) (g : RandomState) :
  trials_ n npv_simulations g =
  match n with
  | O => Ok (npv_simulations, g)
  | S _ =>
      if signbit (sales_deviation * base_sales)
      then Raise (ValueError "scale < 0")
      else if (years <? 0)%Z
           then Raise (ValueError "negative dimensions are not allowed")
           else match discount_factors power discount_rate 0 (Z.to_nat years) with
                | None =>
                    Raise (OverflowError "(34, 'Numerical result out of range')")
                | Some factors =>
                    Ok (npv_simulations ++
                          map (fun i => trial_npv_ factors
                                          (advance g (i * Z.to_nat years)))
                              (seq 0 n),
                        advance g (n * Z.to_nat years))
                end
  end.
Proof.
  revert npv_simulations g.
  induction n as [|n IH]; intros acc g; [reflexivity|].
  unfold trials_ in *. cbn [trials]. fold trial_. rewrite trial_outcome.
  destruct (signbit (sales_deviation * base_sales)); [reflexivity|].
  destruct (years <? 0)%Z; [reflexivity|].
  destruct (discount_factors power discount_rate 0 (Z.to_nat years))
    as [factors|]; [|reflexivity].
  cbn [bind]. rewrite IH. destruct n as [|n].
  - cbn [seq map Nat.mul]. rewrite advance_zero, Nat.add_0_r. reflexivity.
  - rewrite <- app_assoc. apply f_equal, f_equal2.
    + change (seq 0 (S (S n))) with (0%nat :: seq 1 (S n)).
      cbn [map app Nat.mul]. rewrite advance_zero.
      rewrite <- seq_shift, !map_map.
      apply (f_equal (app acc)), (f_equal (cons _)).
      apply map_ext. intro i.
      now rewrite advance_twice.
    + rewrite advance_twice. reflexivity.
Qed.

(** A trial reads the generator only through its next [years] variates. *)
Lemma trial_npv_reads_its_variates (factors : list float) (g1 g2 : RandomState) :
  (forall t, (t < Z.to_nat years)%nat -> draw g1 t = draw g2 t) ->
  trial_npv_ factors g1 = trial_npv_ factors g2.
Proof.
  intro H. unfold trial_npv_, trial_npv. do 2 f_equal.
  apply map_ext_in. intros t Ht. apply in_seq in Ht.
  unfold sampled_sale. rewrite H by lia. reflexivity.
Qed.

End RunFacts.

Lemma powers_in_range (power : float_power) (r : float) (years : Z) :
  (forall t, (1 <= t <= years)%Z -> pow power (1 + r) t <> None) ->
  exists factors,
    discount_factors power r 0 (Z.to_nat years) = Some factors.
Proof.
  intro H. apply discount_factors_exist. intros t Ht. apply H. lia.
Qed.

(** A run whose sampler and powers raise nothing: the samples of the
    successive trials, in order. *)
Lemma run_outcome (power : float_power) (num_simulations years : Z)
    (discount_rate base_sales sales_deviation
     variable_cost_pct fixed_costs tax_rate initial_investment : float)
    (factors : list float) (g : RandomState) :
  signbit (sales_deviation * base_sales) = false -> (0 <= years)%Z ->
  discount_factors power discount_rate 0 (Z.to_nat years) = Some factors ->
  monte_carlo_simulation power num_simulations years discount_rate base_sales
    sales_deviation variable_cost_pct fixed_costs tax_rate initial_investment g
  = Ok (map (fun i => trial_npv years base_sales sales_deviation
                        variable_cost_pct fixed_costs tax_rate
                        initial_investment factors
                        (advance g (i * Z.to_nat years)))
            (seq 0 (Z.to_nat num_simulations)),
        advance g (Z.to_nat num_simulations * Z.to_nat years)).
Proof.
  intros Hscale Hyears Hfactors. unfold monte_carlo_simulation.
  rewrite trials_outcome.
  destruct (Z.to_nat num_simulations) as [|n].
  - now rewrite advance_zero.
  - rewrite Hscale, Hfactors.
    destruct (Z.ltb_spec years 0) as [Hneg|_]; [lia|]. reflexivity.
Qed.

(** ** A horizon whose discount factor leaves binary64 *)

(** 1.2 to the power 4100 is beyond 2^1025: already 1.2^4 exceeds 2. *)
Lemma power_beyond_binary64 :
  (inject_Z (2 ^ 1025) <= Qabs (exact (1 + 0.2)) ^ 4100)%Q.
Proof.
  set (x := Qabs (exact (1 + 0.2))).
  assert (H4 : (1 <= x ^ 4 / 2)%Q).
  { apply Qle_bool_imp_le. vm_compute. reflexivity. }
  assert (E : (x ^ 4100 == 2 ^ 1025 * (x ^ 4 / 2) ^ 1025)%Q).
  { change 4100%Z with (4 * 1025)%Z. rewrite Qpower_mult, <- Qmult_power.
    apply Qpower_comp; [|reflexivity]. field. }
  rewrite E, Zpower_Qpower by lia. change (inject_Z 2) with 2%Q.
  assert (H1 : (1 <= (x ^ 4 / 2) ^ 1025)%Q) by (apply Qpower_1_le; [exact H4|lia]).
  assert (H2 : (0 < 2 ^ 1025)%Q) by (apply Qpower_0_lt; reflexivity).
  set (a := (2 ^ 1025)%Q) in *. set (b := ((x ^ 4 / 2) ^ 1025)%Q) in *.
  nra.
Qed.

Lemma horizon_4100_overflows (power : float_power) :
  pow power (1 + 0.2) 4100 = None.
Proof.
  apply pow_overflow; [lia|reflexivity|exact power_beyond_binary64].
Qed.

(** ** How a run fails *)

Section RunFailures.

Variable power : float_power.
Variables num_simulations years : Z.
Variables discount_rate base_sales sales_deviation : float.
Variables variable_cost_pct fixed_costs tax_rate initial_investment : float.
Variable g : RandomState.

Let run := monte_carlo_simulation power num_simulations years discount_rate
             base_sales sales_deviation variable_cost_pct fixed_costs tax_rate
             initial_investment g.

Lemma run_without_trials : (num_simulations <= 0)%Z -> run = Ok ([], g).
Proof.
  intro Hn. unfold run, monte_carlo_simulation.
  replace (Z.to_nat num_simulations) with 0%nat by lia. reflexivity.
Qed.

Lemma run_rejects_scale :
  (1 <= num_simulations)%Z -> signbit (sales_deviation * base_sales) = true ->
  run = Raise (ValueError "scale < 0").
Proof.
  intros Hn Hs. unfold run, monte_carlo_simulation. rewrite trials_outcome.
  destruct (Z.to_nat num_simulations) eqn:E; [lia|]. now rewrite Hs.
Qed.

Lemma run_rejects_size :
  (1 <= num_simulations)%Z -> signbit (sales_deviation * base_sales) = false ->
  (years < 0)%Z ->
  run = Raise (ValueError "negative dimensions are not allowed").
Proof.
  intros Hn Hs Hy. unfold run, monte_carlo_simulation. rewrite trials_outcome.
  destruct (Z.to_nat num_simulations) eqn:E; [lia|]. rewrite Hs.
  destruct (Z.ltb_spec years 0); [reflexivity|lia].
Qed.

Lemma run_overflows (t : Z) :
  (1 <= num_simulations)%Z -> signbit (sales_deviation * base_sales) = false ->
  (1 <= t <= years)%Z -> pow power (1 + discount_rate) t = None ->
  run = Raise (OverflowError "(34, 'Numerical result out of range')").
Proof.
  intros Hn Hs Ht Hp. unfold run, monte_carlo_simulation.
  rewrite trials_outcome.
  destruct (Z.to_nat num_simulations) eqn:E; [lia|]. rewrite Hs.
  destruct (Z.ltb_spec years 0); [lia|].
  rewrite (discount_factors_overflow power discount_rate (Z.to_nat years) 0
             (Z.to_nat (t - 1))); [reflexivity|lia|].
  rewrite Z2Nat.id by lia. now replace (t - 1 + 1)%Z with t by lia.
Qed.

End RunFailures.

Lemma discount_factors_missing (power : float_power) (r : float) (n t0 : nat) :
  discount_factors power r t0 n = None ->
  exists t, (t0 <= t < t0 + n)%nat
            /\ pow power (1 + r) (Z.of_nat t + 1) = None.
Proof.
  revert t0. induction n as [|n IH]; intros t0 H; cbn in H; [discriminate|].
  destruct (pow power (1 + r) (Z.of_nat t0 + 1)) as [p|] eqn:Ep.
  - destruct (discount_factors power r (S t0) n) eqn:E; [discriminate|].
    destruct (IH (S t0) E) as (t & Ht & Hp). exists t. split; [lia|exact Hp].
  - exists t0. split; [lia|exact Ep].
Qed.

Lemma nth_error_map_seq {A : Type} (f : nat -> A) (n i : nat) :
  (i < n)%nat -> nth_error (map f (seq 0 n)) i = Some (f i).
Proof.
  intro Hi. rewrite nth_error_map, nth_error_seq.
  destruct (Nat.ltb_spec i n); [reflexivity|lia].
Qed.

(** ** The claims *)

(** C1, as stated, fails.  With at least one trial and one year the run can
    still raise instead of returning samples: [np.random.normal] rejects
    the negative standard deviation that a negative deviation gives it, and
    over a long horizon the discount factor of line 18 leaves binary64,
    here with every parameter in its valid range. *)
Lemma run_raises_with_positive_counts :
  (forall (power : float_power) (g : RandomState),
      monte_carlo_simulation power 1 1 0.1 1000 (-0.1) 0.4 200 0.3 2000 g
      = Raise (ValueError "scale < 0"))
  /\ (forall (power : float_power) (g : RandomState),
        monte_carlo_simulation power 1 4100 0.2 1000 0.2 0.4 200 0.3 2000 g
        = Raise (OverflowError "(34, 'Numerical result out of range')")).
Proof.
  split; intros power g.
  - apply run_rejects_scale; [lia|reflexivity].
  - apply (run_overflows power 1 4100 0.2 1000 0.2 0.4 200 0.3 2000 g 4100);
      [lia|reflexivity|lia|apply horizon_4100_overflows].
Qed.

(** C1, amended.  For every call with simulation_count >= 1 and
    horizon_years >= 1 whose standard deviation
    [sales_deviation * base_sales] has a clear sign bit (it is neither
    negative nor -0.0) and whose discount factors
    [(1 + discount_rate) ** t], t = 1 .. horizon_years, stay in binary64,
    the run returns exactly simulation_count samples, in the order the
    trials were generated: the i-th sample is what the i-th trial computes,
    started where trial i - 1 left the generator. *)
Theorem run_returns_one_sample_per_trial_in_order :
  forall (power : float_power) (num_simulations years : Z)
         (discount_rate base_sales sales_deviation
          variable_cost_pct fixed_costs tax_rate initial_investment : float)
         (g : RandomState),
    (1 <= num_simulations)%Z -> (1 <= years)%Z ->
    signbit (sales_deviation * base_sales) = false ->
    (forall t, (1 <= t <= years)%Z ->
               pow power (1 + discount_rate) t <> None) ->
    exists npv_simulations,
      monte_carlo_simulation power num_simulations years discount_rate
        base_sales sales_deviation variable_cost_pct fixed_costs tax_rate
        initial_investment g
      = Ok (npv_simulations,
            advance g (Z.to_nat num_simulations * Z.to_nat years))
      /\ Z.of_nat (length npv_simulations) = num_simulations
      /\ forall i, (i < Z.to_nat num_simulations)%nat ->
           exists npv,
             nth_error npv_simulations i = Some npv
             /\ trial power years discount_rate base_sales sales_deviation
                  variable_cost_pct fixed_costs tax_rate initial_investment
                  (advance g (i * Z.to_nat years))
                = Ok (npv, advance g (S i * Z.to_nat years)).
Proof.
  intros power n years r base sd v f tax I g Hn Hy Hscale Hpow.
  destruct (powers_in_range power r years Hpow) as (factors & Hfactors).
  eexists. split.
  { apply (run_outcome _ _ _ _ _ _ _ _ _ _ factors);
      [exact Hscale|lia|exact Hfactors]. }
  split; [rewrite length_map, length_seq; lia|].
  intros i Hi. eexists. split; [apply (nth_error_map_seq _ _ _ Hi)|].
  rewrite trial_outcome, Hscale, Hfactors.
  destruct (Z.ltb_spec years 0); [lia|].
  rewrite advance_twice.
  now replace (S i * Z.to_nat years)%nat
    with (i * Z.to_nat years + Z.to_nat years)%nat by lia.
Qed.

Lemma run_returns_one_sample_per_trial_in_order_witness :
  exists npv_simulations,
    monte_carlo_simulation reference_power 2 3 0.1 1000 0.2 0.4 200 0.3 2000
      example_state
    = Ok (npv_simulations, advance example_state (Z.to_nat 2 * Z.to_nat 3))
    /\ Z.of_nat (length npv_simulations) = 2%Z
    /\ forall i, (i < Z.to_nat 2)%nat ->
         exists npv,
           nth_error npv_simulations i = Some npv
           /\ trial reference_power 3 0.1 1000 0.2 0.4 200 0.3 2000
                (advance example_state (i * Z.to_nat 3))
              = Ok (npv, advance example_state (S i * Z.to_nat 3)).
Proof.
  apply (run_returns_one_sample_per_trial_in_order
           reference_power 2 3 0.1 1000 0.2 0.4 200 0.3 2000 example_state).
  - lia.
  - lia.
  - reflexivity.
  - intros t Ht.
    assert (E : t = 1%Z \/ t = 2%Z \/ t = 3%Z) by lia.
    destruct E as [->|[->| ->]]; vm_compute; discriminate.
Defined.

(** The sample of a trial, from its discount factors given as a function
    of the year. *)
Lemma trial_npv_is_discounted_sum (years : Z)
    (base sd v f tax I : float) (factor : nat -> float) (g : RandomState) :
  trial_npv years base sd v f tax I (map factor (seq 0 (Z.to_nat years))) g
  = discounted_sum (Z.to_nat years)
      (fun t => spec_net_cash_flow v f tax (sampled_sale base sd g t)) factor
    - I.
Proof.
  unfold trial_npv, discounted_sum.
  now rewrite (discount_acc_is_sum
                 (fun t => net_cash_flow_of v f tax (sampled_sale base sd g t))).
Qed.

(** C3.  The NPV sample of every trial (started with the generator in any
    state [g]) is the sum over t from 0 to horizon_years - 1 of
    net_cash_flow_t divided by (1 + discount_rate) raised to the power
    t + 1, minus initial_investment, the terms added from left to right
    in binary64 and the power being Python's.  The factor of year 0 is
    [(1 + discount_rate) ** 1 = 1 + discount_rate]: the first cash flow is
    discounted one full period.  With a horizon of one year the sample is
    [0 + net_cash_flow_0 / (1 + discount_rate) - initial_investment]. *)
Theorem npv_is_discounted_sum_minus_investment :
  forall (power : float_power) (years : Z)
         (discount_rate base_sales sales_deviation
          variable_cost_pct fixed_costs tax_rate initial_investment : float)
         (g g' : RandomState) (npv : float),
    trial power years discount_rate base_sales sales_deviation
      variable_cost_pct fixed_costs tax_rate initial_investment g
    = Ok (npv, g') ->
    let net_cash_flow t :=
      spec_net_cash_flow variable_cost_pct fixed_costs tax_rate
        (sampled_sale base_sales sales_deviation g t) in
    exists factor : nat -> float,
      (forall t, (t < Z.to_nat years)%nat ->
                 pow power (1 + discount_rate) (Z.of_nat t + 1)
                 = Some (factor t))
      /\ npv = discounted_sum (Z.to_nat years) net_cash_flow factor
               - initial_investment
      /\ ((1 <= years)%Z -> factor 0%nat = 1 + discount_rate)
      /\ (years = 1%Z ->
          npv = 0 + net_cash_flow 0%nat / (1 + discount_rate)
                - initial_investment).
Proof.
  intros power years r base sd v f tax I g g' npv H ncf.
  rewrite trial_outcome in H.
  destruct (signbit (sd * base)); [discriminate|].
  destruct (years <? 0)%Z; [discriminate|].
  destruct (discount_factors power r 0 (Z.to_nat years)) as [factors|] eqn:E;
    [|discriminate].
  injection H as <- _.
  destruct (discount_factors_spec power r _ _ _ E) as (factor & -> & Hf).
  assert (H0 : (1 <= years)%Z -> factor 0%nat = 1 + r).
  { intro Hy. specialize (Hf 0%nat). cbn in Hf. rewrite pow_one in Hf.
    symmetry. injection Hf; [trivial|lia]. }
  exists factor. split; [intros t Ht; apply Hf; lia|].
  split; [apply trial_npv_is_discounted_sum|]. split; [exact H0|].
  intros ->. rewrite trial_npv_is_discounted_sum.
  change (Z.to_nat 1) with 1%nat. unfold discounted_sum. cbn [seq fold_left].
  rewrite H0 by lia. reflexivity.
Qed.

Lemma npv_is_discounted_sum_minus_investment_witness :
  exists factor : nat -> float,
    (forall t, (t < Z.to_nat 3)%nat ->
               pow reference_power (1 + 0.1) (Z.of_nat t + 1) = Some (factor t))
    /\ -1414.7558226897072
       = discounted_sum (Z.to_nat 3)
           (fun t => spec_net_cash_flow 0.4 200 0.3
                       (sampled_sale 1000 0.2 example_state t))
           factor
         - 2000
    /\ ((1 <= 3)%Z -> factor 0%nat = 1 + 0.1)
    /\ (3%Z = 1%Z ->
        -1414.7558226897072
        = 0 + spec_net_cash_flow 0.4 200 0.3
                (sampled_sale 1000 0.2 example_state 0)
              / (1 + 0.1)
          - 2000).
Proof.
  apply (npv_is_discounted_sum_minus_investment
           reference_power 3 0.1 1000 0.2 0.4 200 0.3 2000
           example_state (advance example_state 3) (-1414.7558226897072)).
  vm_compute. reflexivity.
Defined.

(** A zero deviation times a mean with a clear sign bit is a standard
    deviation [np.random.normal] accepts. *)
Lemma zero_scale_accepted (base : float) :
  signbit base = false -> signbit (0 * base) = false.
Proof.
  unfold signbit. rewrite mul_spec. change (Prim2SF 0) with (S754_zero false).
  destruct (Prim2SF base) as [s|s| |s m e]; cbn; intro H;
    try reflexivity; subst s; reflexivity.
Qed.

Lemma fold_left_agree {A B : Type} (f h : A -> B -> A) (l : list B) (a : A) :
  (forall a x, In x l -> f a x = h a x) ->
  fold_left f l a = fold_left h l a.
Proof.
  revert a. induction l as [|x l IH]; intros a H; [reflexivity|].
  cbn [fold_left]. rewrite (H a x) by now left.
  apply IH. intros a' y Hy. apply H. now right.
Qed.




(** C6, as stated, fails.  With initial_investment = 500 and delta = 100,
    everything else and the variates fixed, the sample of the first run is
    -245.45454545454547 and that of the second -345.4545454545455: their
    difference is not 100, neither computed in binary64
    (100.00000000000003) nor taken exactly.  The horizon is one year, so
    the only power is [x ** 1]. *)
Lemma translation_by_100_misses_by_an_ulp :
  (forall power : float_power,
      samples (monte_carlo_simulation power 1 1 0.1 1000 0 0.4 200 0.3
                 500 example_state)
      = Ok [-245.45454545454547]
      /\ samples (monte_carlo_simulation power 1 1 0.1 1000 0 0.4 200 0.3
                    (500 + 100) example_state)
         = Ok [-345.4545454545455])
  /\ -245.45454545454547 - -345.4545454545455 = 100.00000000000003
  /\ (100.00000000000003 =? 100) = false
  /\ ~ (exact (-245.45454545454547) - exact (-345.4545454545455)
        == exact 100)%Q.
Proof.
  split; [|split; [|split]].
  - intro power.
    assert (E : discount_factors power 0.1 0 (Z.to_nat 1) = Some [1 + 0.1]).
    { change (Z.to_nat 1) with 1%nat. cbn [discount_factors].
      change (Z.of_nat 0 + 1)%Z with 1%Z. now rewrite pow_one. }
    split;
      rewrite (run_outcome power _ _ _ _ _ _ _ _ _ [1 + 0.1]);
      try reflexivity; try lia; exact E.
  - reflexivity.
  - reflexivity.
  - vm_compute. discriminate.
Qed.

(** C6, amended.  With everything else and the variates fixed, the run
    with initial_investment + delta fails exactly as the run with
    initial_investment does, or both return, having drawn the same
    variates, and their samples come from the same discounted sums: one
    subtracts initial_investment from each, the other
    initial_investment + delta, each subtraction rounded to binary64.  The
    two samples differ by delta up to that rounding, not exactly. *)
Theorem initial_investment_translation :
  forall (power : float_power) (num_simulations years : Z)
         (discount_rate base_sales sales_deviation
          variable_cost_pct fixed_costs tax_rate
          initial_investment delta : float)
         (g : RandomState),
    exists discounted_sums : result (list float * RandomState),
      monte_carlo_simulation power num_simulations years discount_rate
        base_sales sales_deviation variable_cost_pct fixed_costs tax_rate
        initial_investment g
      = minus_investment initial_investment discounted_sums
      /\ monte_carlo_simulation power num_simulations years discount_rate
           base_sales sales_deviation variable_cost_pct fixed_costs tax_rate
           (initial_investment + delta) g
         = minus_investment (initial_investment + delta) discounted_sums.
Proof.
  intros power n years r base sd v f tax I delta g.
  unfold monte_carlo_simulation. rewrite !trials_outcome.
  destruct (Z.to_nat n) as [|n']; [exists (Ok ([], g)); now split|].
  destruct (signbit (sd * base)); [eexists (Raise _); split; reflexivity|].
  destruct (years <? 0)%Z; [eexists (Raise _); split; reflexivity|].
  destruct (discount_factors power r 0 (Z.to_nat years)) as [factors|];
    [|eexists (Raise _); split; reflexivity].
  exists (Ok (map (fun i =>
                     discount_acc 0
                       (map (fun t => net_cash_flow_of v f tax
                                        (sampled_sale base sd
                                           (advance g (i * Z.to_nat years)) t))
                            (seq 0 (Z.to_nat years)))
                       factors)
                  (seq 0 (S n')),
              advance g (S n' * Z.to_nat years))).
  unfold minus_investment. rewrite !map_map. split; reflexivity.
Qed.

(** ** Degenerate discount factors *)

(** Once the running total of line 18 is Infinity or NaN it stays so. *)
Lemma discount_acc_stays_not_finite (cs ps : list float) (acc : float) :
  is_finite acc = false -> is_finite (discount_acc acc cs ps) = false.
Proof.
  revert ps acc. induction cs as [|c cs IH]; intros ps acc H; [exact H|].
  destruct ps as [|p ps]; [exact H|].
  cbn [discount_acc]. apply IH. now apply add_not_finite_l.
Qed.

(** With discount_rate = -1 every discount factor is [0.0 ** t = 0.0]. *)
Lemma zero_discount_factors (power : float_power) (n t0 : nat) :
  discount_factors power (-1) t0 n = Some (repeat 0 n).
Proof.
  revert t0. induction n as [|n IH]; intro t0; [reflexivity|].
  cbn [discount_factors repeat]. change (1 + -1) with 0.
  rewrite pow_zero by lia. now rewrite IH.
Qed.

Lemma trial_npv_degenerate (years : Z) (base sd v f tax I : float)
    (g : RandomState) :
  (1 <= years)%Z ->
  is_finite (trial_npv years base sd v f tax I
               (repeat 0 (Z.to_nat years)) g) = false.
Proof.
  intro Hy. unfold trial_npv. apply sub_not_finite_l.
  destruct (Z.to_nat years) as [|n] eqn:E; [lia|].
  cbn [seq map repeat discount_acc].
  apply discount_acc_stays_not_finite, add_not_finite_r, div_zero_not_finite.
Qed.





(** * Further properties of the engine in binary64 *)

(** X1.  The run raises exactly when there is at least one trial to run
    and either [np.random.normal] rejects its arguments (ValueError for a
    standard deviation whose sign bit is set, otherwise ValueError for a
    negative number of years) or a discount factor of line 18 leaves
    binary64 (OverflowError).  It raises nothing else, in particular no
    IndexError from the indexing of line 18, and with
    num_simulations <= 0 nothing is checked at all. *)
Theorem monte_carlo_simulation_raises_iff :
  forall (power : float_power) (num_simulations years : Z)
         (discount_rate base_sales sales_deviation
          variable_cost_pct fixed_costs tax_rate initial_investment : float)
         (g : RandomState) (e : exception),
    monte_carlo_simulation power num_simulations years discount_rate
      base_sales sales_deviation variable_cost_pct fixed_costs tax_rate
      initial_investment g = Raise e
    <-> (1 <= num_simulations)%Z
        /\ ((signbit (sales_deviation * base_sales) = true
             /\ e = ValueError "scale < 0")
            \/ (signbit (sales_deviation * base_sales) = false
                /\ (years < 0)%Z
                /\ e = ValueError "negative dimensions are not allowed")
            \/ (signbit (sales_deviation * base_sales) = false
                /\ (exists t, (1 <= t <= years)%Z
                              /\ pow power (1 + discount_rate) t = None)
                /\ e = OverflowError "(34, 'Numerical result out of range')")).
Proof.
  intros power n years r base sd v f tax I g e. split.
  - unfold monte_carlo_simulation. rewrite trials_outcome.
    destruct (Z.to_nat n) as [|n'] eqn:En; [discriminate|].
    destruct (signbit (sd * base)).
    { intro H. injection H as <-. split; [lia|]. left. now split. }
    destruct (Z.ltb_spec years 0) as [Hneg|Hpos].
    { intro H. injection H as <-. split; [lia|]. right. left. now repeat split. }
    destruct (discount_factors power r 0 (Z.to_nat years)) eqn:E;
      [discriminate|].
    intro H. injection H as <-. split; [lia|]. right. right.
    split; [reflexivity|]. split; [|reflexivity].
    destruct (discount_factors_missing power r _ _ E) as (t & Ht & Hp).
    exists (Z.of_nat t + 1)%Z. split; [lia|exact Hp].
  - intros (Hn & [(Hs & ->)|[(Hs & Hy & ->)|(Hs & (t & Ht & Hp) & ->)]]).
    + now apply run_rejects_scale.
    + now apply run_rejects_size.
    + now apply (run_overflows _ _ _ _ _ _ _ _ _ _ _ t).
Qed.

(** X3.  With years = 0 and a standard deviation whose sign bit is clear,
    the sum of line 18 is empty: every sample is [0 - initial_investment],
    whatever the other parameters, and the generator is left in the state
    it was in. *)
Theorem zero_horizon_samples :
  forall (power : float_power) (num_simulations : Z)
         (discount_rate base_sales sales_deviation
          variable_cost_pct fixed_costs tax_rate initial_investment : float)
         (g : RandomState),
    signbit (sales_deviation * base_sales) = false ->
    monte_carlo_simulation power num_simulations 0 discount_rate base_sales
      sales_deviation variable_cost_pct fixed_costs tax_rate
      initial_investment g
    = Ok (repeat (0 - initial_investment) (Z.to_nat num_simulations), g).
Proof.
  intros power n r base sd v f tax I g Hscale.
  rewrite (run_outcome power _ _ _ _ _ _ _ _ _ []);
    [|exact Hscale|lia|reflexivity].
  change (Z.to_nat 0) with 0%nat. rewrite Nat.mul_0_r, advance_zero.
  apply (f_equal (fun l => Ok (l, g))).
  transitivity (map (fun _ : nat => 0 - I) (seq 0 (Z.to_nat n)));
    [apply map_ext; intro i; reflexivity|].
  now rewrite map_const, length_seq.
Qed.

Lemma zero_horizon_samples_witness :
  monte_carlo_simulation reference_power 3 0 0.1 1000 0.2 0.4 200 0.3 2000
    example_state
  = Ok (repeat (0 - 2000) (Z.to_nat 3), example_state).
Proof.
  apply (zero_horizon_samples
           reference_power 3 0.1 1000 0.2 0.4 200 0.3 2000 example_state).
  reflexivity.
Defined.

(** X4.  No variate is shared between trials: the i-th returned sample
    depends on the generator only through the block of [years] variates
    that starts at position i * years.  Two runs whose generator states
    agree on that block raise the same exception or return the same i-th
    sample, however the states differ elsewhere. *)
Theorem sample_depends_on_its_own_variates :
  forall (power : float_power) (num_simulations years : Z)
         (discount_rate base_sales sales_deviation
          variable_cost_pct fixed_costs tax_rate initial_investment : float)
         (g1 g2 : RandomState) (i : nat),
    (forall t, (t < Z.to_nat years)%nat ->
               draw g1 (i * Z.to_nat years + t)
               = draw g2 (i * Z.to_nat years + t)) ->
    result_rel (fun npvs1 npvs2 => nth_error npvs1 i = nth_error npvs2 i)
      (samples (monte_carlo_simulation power num_simulations years
                  discount_rate base_sales sales_deviation variable_cost_pct
                  fixed_costs tax_rate initial_investment g1))
      (samples (monte_carlo_simulation power num_simulations years
                  discount_rate base_sales sales_deviation variable_cost_pct
                  fixed_costs tax_rate initial_investment g2)).
Proof.
  intros power n years r base sd v f tax I g1 g2 i Hblock.
  unfold monte_carlo_simulation. rewrite !trials_outcome.
  destruct (Z.to_nat n) as [|n']; [now constructor|].
  destruct (signbit (sd * base)); [constructor|].
  destruct (years <? 0)%Z; [constructor|].
  destruct (discount_factors power r 0 (Z.to_nat years)) as [factors|];
    [|constructor].
  cbn [samples app]. constructor.
  destruct (Nat.lt_ge_cases i (S n')) as [Hi|Hi].
  - rewrite !(nth_error_map_seq _ _ _ Hi). f_equal.
    apply trial_npv_reads_its_variates. intros t Ht.
    rewrite !draw_after_advance. now apply Hblock.
  - transitivity (@None float); [|symmetry];
      apply nth_error_None; now rewrite length_map, length_seq.
Qed.

Lemma sample_depends_on_its_own_variates_witness :
  result_rel (fun npvs1 npvs2 => nth_error npvs1 1 = nth_error npvs2 1)
    (samples (monte_carlo_simulation reference_power 2 3 0.1 1000 0.2 0.4
                200 0.3 2000 example_state))
    (samples (monte_carlo_simulation reference_power 2 3 0.1 1000 0.2 0.4
                200 0.3 2000 example_state')).
Proof.
  apply (sample_depends_on_its_own_variates
           reference_power 2 3 0.1 1000 0.2 0.4 200 0.3 2000
           example_state example_state' 1).
  intros t Ht. change (Z.to_nat 3) with 3%nat in *.
  do 3 (destruct t as [|t]; [reflexivity|]). lia.
Defined.

(** ** Evaluations *)

(** One trial of one year: the cash flow of year 0 is divided by
    [1 + discount_rate]. *)
Example one_year_trial :
  trial reference_power 1 0.1 1000 0.2 0.4 200 0.3 2000 example_state
  = Ok (0 + spec_net_cash_flow 0.4 200 0.3 800 / (1 + 0.1) - 2000,
        advance example_state 1).
Proof. vm_compute. reflexivity. Qed.

(** Two trials of three years, and the same run started with other
    variates for the first trial. *)
Example two_trials_of_three_years_in_binary64 :
  samples (monte_carlo_simulation reference_power 2 3 0.1 1000 0.2 0.4 200
             0.3 2000 example_state)
  = Ok [-1414.7558226897072; -1101.4124718256951]
  /\ match samples (monte_carlo_simulation reference_power 2 3 0.1 1000 0.2
                      0.4 200 0.3 2000 example_state') with
     | Ok [first; second] =>
         (first =? -1414.7558226897072) = false
         /\ second = -1101.4124718256951
     | _ => False
     end.
Proof. vm_compute. split; [reflexivity|now split]. Qed.

(** A standard deviation of -0.0 is rejected. *)
Example negative_zero_scale_raises :
  0 * -1000 = -0
  /\ monte_carlo_simulation reference_power 1 1 0.1 (-1000) 0 0.4 200 0.3 2000
       example_state
     = Raise (ValueError "scale < 0").
Proof. split; reflexivity. Qed.

(** The percentiles of five samples, whatever their order, and of a result
    whose samples are all Infinity. *)
Example percentiles_in_binary64 :
  percentile_5 [1; 2; 3; 4; 5] = Some 1.2
  /\ percentile_95 [5; 1; 4; 2; 3] = Some 4.8
  /\ percentile_5 [infinity; infinity] = Some nan.
Proof. repeat split. Qed.

End Binary64Facts.
